(** * ONNX preprocessing scripts: [extract_emap.py] and [patch_det10g.py]

    A shallow embedding of the two command-line scripts under [scripts/]
    and the properties of their selection, patching and file output.

    Conventions of the embedding:
    - a byte is a [Z] in [0, 256); a file is a [list Z]; the file system
      is a finite map from paths to files;
    - the scripts run in a state-and-exception monad over the file system;
    - [onnx] (parse and serialise a model), [numpy] (numeric conversion to
      float32) and [requests] (HTTP download) are collaborators, given as
      type classes;
    - console output is informational only and is left out. *)

From Stdlib Require Import ZArith Ascii String List Lia Bool.
From stdpp Require Import gmap strings list.
Import ListNotations.

Local Open Scope Z_scope.

(** ** Python string operations used by the scripts *)

Module PyStr.

(** [str.lower] on the ASCII range. A name is held as its UTF-8 bytes;
    bytes outside [A-Z] are left alone, which cannot create or destroy
    an occurrence of the ASCII word the script looks for. *)
Definition lower_ascii (c : ascii) : ascii :=
  let n := nat_of_ascii c in
  if (Nat.leb 65 n && Nat.leb n 90)%bool then ascii_of_nat (n + 32) else c.

Fixpoint lower (s : string) : string :=
  match s with
  | EmptyString => EmptyString
  | String c s' => String (lower_ascii c) (lower s')
  end.

(** [s.startswith(p)] *)
Fixpoint startswith (p s : string) : bool :=
  match p, s with
  | EmptyString, _ => true
  | String a p', String b s' => (Ascii.eqb a b && startswith p' s')%bool
  | String _ _, EmptyString => false
  end.

(** [sub in s] *)
Fixpoint contains (sub s : string) : bool :=
  match s with
  | EmptyString => startswith sub EmptyString
  | String _ s' => (startswith sub s || contains sub s')%bool
  end.

(** [x in names] for a list of strings *)
Definition in_list (x : string) (names : list string) : bool :=
  existsb (String.eqb x) names.

(** [s.replace(old, new)]: every non-overlapping occurrence of [old],
    scanning from the left. [skip] counts the characters of an
    occurrence already replaced that are still to be dropped. *)
Fixpoint replace_from (old new : string) (skip : nat) (s : string) : string :=
  match s with
  | EmptyString => EmptyString
  | String c s' =>
      match skip with
      | S k => replace_from old new k s'
      | O =>
          if startswith old s
          then String.append new (replace_from old new (String.length old - 1) s')
          else String c (replace_from old new 0 s')
      end
  end.

(** With an empty [old] Python puts [new] before every character and at
    the end. *)
Fixpoint interleave (new s : string) : string :=
  String.append new
    (match s with
     | EmptyString => EmptyString
     | String c s' => String c (interleave new s')
     end).

Definition replace (old new s : string) : string :=
  match old with
  | EmptyString => interleave new s
  | String _ _ => replace_from old new 0 s
  end.

End PyStr.

(** ** Data model *)

(** Element types of tensors and arrays (the numeric part of ONNX's
    [TensorProto.DataType], under the names of the numpy dtypes
    [to_array] maps them to). *)
Inductive dtype :=
| float16 | float32 | float64
| int8 | int16 | int32 | int64
| uint8 | uint16 | uint32 | uint64
| bool_.

(** [dtype.itemsize], in bytes *)
Definition itemsize (d : dtype) : nat :=
  match d with
  | int8 | uint8 | bool_ => 1
  | float16 | int16 | uint16 => 2
  | float32 | int32 | uint32 => 4
  | float64 | int64 | uint64 => 8
  end%nat.

(** An initializer. [data] holds the elements in row-major order, each
    as the bit pattern of its [data_type]. *)
Module TensorProto.
Record t := mk {
  name : string;
  dims : list Z;
  data_type : dtype;
  data : list Z
}.
End TensorProto.

Module AttributeProto.
Record t := mk {
  name : string;
  i : Z;
  s : string;
  ints : list Z
}.
End AttributeProto.

Module NodeProto.
Record t := mk {
  name : string;
  op_type : string;
  input : list string;
  output : list string;
  attribute : list AttributeProto.t
}.
End NodeProto.

Module GraphProto.
Record t := mk {
  node : list NodeProto.t;
  initializer : list TensorProto.t
}.
End GraphProto.

Module ModelProto.
Record t := mk {
  ir_version : Z;
  graph : GraphProto.t
}.
End ModelProto.

(** A numpy array: shape, element type and the flat row-major buffer of
    element bit patterns. *)
Module ndarray.
Record t := mk {
  shape : list Z;
  dtype_ : dtype;
  buffer : list Z
}.
End ndarray.

(** Number of elements of a shape *)
Definition numel (shape : list Z) : Z := fold_right Z.mul 1 shape.

(** A tensor is well formed when its dimensions are sizes and it has as
    many elements as they say. *)
Definition wf_tensor (t : TensorProto.t) : Prop :=
  Forall (fun d => 0 <= d) (TensorProto.dims t)
  /\ Z.of_nat (length (TensorProto.data t)) = numel (TensorProto.dims t).

(** The elements of a tensor as an array of the tensor's dims *)
Definition array_of (t : TensorProto.t) : ndarray.t :=
  {| ndarray.shape := TensorProto.dims t;
     ndarray.dtype_ := TensorProto.data_type t;
     ndarray.buffer := TensorProto.data t |}.

(** The [k] low bytes of [w], least significant first *)
Definition le_bytes (k : nat) (w : Z) : list Z :=
  map (fun j => Z.land (Z.shiftr w (8 * Z.of_nat j)) 255) (seq 0 k).

(** [ndarray.tobytes()]: the buffer in C order on a little-endian host *)
Definition tobytes (a : ndarray.t) : list Z :=
  flat_map (le_bytes (itemsize (ndarray.dtype_ a))) (ndarray.buffer a).

(** ** Collaborators *)

(** numpy. [convert_float32] is the conversion of one element of a given
    dtype to the bit pattern of the nearest binary32 value. [infer_shape]
    is what [reshape] makes of a shape with a negative entry for a given
    number of elements: the shape with the entry filled in, or nothing
    when it raises. *)
Class Numpy := {
  convert_float32 : dtype -> Z -> Z;
  infer_shape : list Z -> nat -> option (list Z)
}.

(** onnx's wire format: [parse] reads a model from the bytes of a file,
    [serialize] writes it back. *)
Class Onnx := {
  parse : list Z -> option ModelProto.t;
  serialize : ModelProto.t -> list Z
}.

(** ** The monad of the scripts: file system state and exceptions *)

Inductive exn :=
| FileNotFoundError
| ModelLoadError
| ValueError (msg : string)
| HTTPError
| ConnectionError
| SystemExit (code : Z).

(** The course of a streamed GET as [download_model] sees it. [Failed]:
    the import of requests, [requests.get], [raise_for_status] or the
    reading of the headers raises, before the output file is opened.
    [Body]: every chunk arrives. [Broken]: the stream raises after the
    chunks [received], possibly none, have been written. *)
Inductive response :=
| Failed (e : exn)
| Body (content : list Z)
| Broken (received : list Z) (e : exn).

(** requests *)
Class Requests := { http_get : string -> response }.

Definition M (A : Type) : Type :=
  gmap string (list Z) -> (exn + A) * gmap string (list Z).

Definition ret {A} (x : A) : M A := fun fs => (inr x, fs).

Definition bind {A B} (c : M A) (k : A -> M B) : M B :=
  fun fs =>
    match c fs with
    | (inl e, fs') => (inl e, fs')
    | (inr x, fs') => k x fs'
    end.

Definition raise {A} (e : exn) : M A := fun fs => (inl e, fs).

Notation "x <- c1 ;; c2" := (bind c1 (fun x => c2))
  (at level 100, c1 at next level, right associativity).
Notation "c1 ;; c2" := (bind c1 (fun _ => c2))
  (at level 100, right associativity).

(** [os.path.exists] *)
Definition path_exists (path : string) : M bool :=
  fun fs => (inr (bool_decide (is_Some (fs !! path))), fs).

(** [open(path, 'wb')] followed by one [write] *)
Definition write_file (path : string) (bytes : list Z) : M unit :=
  fun fs => (inr tt, <[path := bytes]> fs).

(** [sys.exit(code)] *)
Definition sys_exit {A} (code : Z) : M A := raise (SystemExit code).

Section Scripts.
Context {np : Numpy} {onnx : Onnx} {requests : Requests}.

(** [onnx.load] *)
Definition onnx_load (path : string) : M ModelProto.t :=
  fun fs =>
    match fs !! path with
    | None => (inl FileNotFoundError, fs)
    | Some bytes =>
        match parse bytes with
        | None => (inl ModelLoadError, fs)
        | Some model => (inr model, fs)
        end
    end.

(** [onnx.save] *)
Definition onnx_save (model : ModelProto.t) (path : string) : M unit :=
  write_file path (serialize model).

(** [download_model], shared by both scripts. The file is opened once the
    response has passed [raise_for_status] and is filled chunk by chunk;
    when the stream breaks, what was written stays on disk. *)
Definition download_model (url output_path : string) : M unit :=
  match http_get url with
  | Failed e => raise e
  | Body content => write_file output_path content
  | Broken received e => write_file output_path received ;; raise e
  end.

(** ** extract_emap.py *)

Definition emap_names : list string :=
  ["emap"; "Emap"; "EMAP"; "e_map"; "embedding_map"]%string.

(** [initializer.name in emap_names or 'emap' in initializer.name.lower()] *)
Definition name_match (t : TensorProto.t) : bool :=
  PyStr.in_list (TensorProto.name t) emap_names
  || PyStr.contains "emap" (PyStr.lower (TensorProto.name t)).

(** [len(shape) == 2 and shape[0] == 512 and shape[1] == 512] *)
Definition shape_match (t : TensorProto.t) : bool :=
  match TensorProto.dims t with
  | [d0; d1] => (d0 =? 512) && (d1 =? 512)
  | _ => false
  end.

Definition reshape_error : exn := ValueError "cannot reshape array".

(** [onnx.numpy_helper.to_array]: the elements of the tensor, reshaped to
    its dims. When the dims are sizes, [reshape] raises a ValueError
    unless their product is the number of elements; dims with a negative
    entry are resolved by numpy ([infer_shape]). *)
Definition to_array (t : TensorProto.t) : exn + ndarray.t :=
  let n := length (TensorProto.data t) in
  if forallb (fun d => 0 <=? d) (TensorProto.dims t) then
    if Z.of_nat n =? numel (TensorProto.dims t) then inr (array_of t)
    else inl reshape_error
  else
    match infer_shape (TensorProto.dims t) n with
    | Some shape =>
        inr {| ndarray.shape := shape;
               ndarray.dtype_ := TensorProto.data_type t;
               ndarray.buffer := TensorProto.data t |}
    | None => inl reshape_error
    end.

(** The loop over [model.graph.initializer]: the outcome of [to_array]
    at the first [return] reached, or nothing when the loop runs to its
    end. *)
Fixpoint scan_initializers (l : list TensorProto.t) : option (exn + ndarray.t) :=
  match l with
  | [] => None
  | initializer :: rest =>
      if name_match initializer then Some (to_array initializer)
      else if shape_match initializer then Some (to_array initializer)
      else scan_initializers rest
  end.

Definition not_found : exn := ValueError "EMAP initializer not found in model".

Definition extract_emap (model_path : string) : M ndarray.t :=
  model <- onnx_load model_path ;;
  match scan_initializers (GraphProto.initializer (ModelProto.graph model)) with
  | Some (inr emap) => ret emap
  | Some (inl e) => raise e
  | None => raise not_found
  end.

(** [emap.astype(np.float32)]: a float32 array is copied as it is, any
    other is converted element by element. *)
Definition astype_float32 (a : ndarray.t) : ndarray.t :=
  {| ndarray.shape := ndarray.shape a;
     ndarray.dtype_ := float32;
     ndarray.buffer :=
       match ndarray.dtype_ a with
       | float32 => ndarray.buffer a
       | d => map (convert_float32 d) (ndarray.buffer a)
       end |}.

Definition save_binary (emap : ndarray.t) (output_path : string) : M unit :=
  let emap_f32 := astype_float32 emap in
  write_file output_path (tobytes emap_f32).

Definition EMAP_MODEL_URL : string :=
  "https://huggingface.co/ezioruan/inswapper_128.onnx/resolve/main/inswapper_128.onnx".

(** The branch on [len(sys.argv)] of [extract_emap.main]: the input
    and output paths, after the download of the zero-argument case. *)
Definition extract_paths (argv : list string) : M (string * string) :=
  match argv with
  | _ :: a1 :: a2 :: _ => ret (a1, a2)
  | [_; a1] => ret (a1, "emap.bin"%string)
  | _ =>
      let input_path := "inswapper_128.onnx"%string in
      let output_path := "emap.bin"%string in
      ex <- path_exists input_path ;;
      (if negb ex then download_model EMAP_MODEL_URL input_path else ret tt) ;;
      ret (input_path, output_path)
  end.

Definition extract_main (argv : list string) : M unit :=
  paths <- extract_paths argv ;;
  let '(input_path, output_path) := paths in
  ex <- path_exists input_path ;;
  if negb ex then sys_exit 1
  else
    emap <- extract_emap input_path ;;
    save_binary emap output_path.

(** ** patch_det10g.py *)

(** The inner loop [for i, attr in enumerate(node.attribute)]: the
    index at which it stops, counting from [i], or nothing when no
    attribute is named [ceil_mode]. *)
Fixpoint find_ceil_mode (i : nat) (attrs : list AttributeProto.t) : option nat :=
  match attrs with
  | [] => None
  | attr :: rest =>
      if String.eqb (AttributeProto.name attr) "ceil_mode" then Some i
      else find_ceil_mode (S i) rest
  end.

(** The body of the loop over the nodes, on one node and the running
    [patch_count]; [del node.attribute[i]] is the list [delete]. *)
Definition patch_node (node : NodeProto.t) (patch_count : nat) : NodeProto.t * nat :=
  if String.eqb (NodeProto.op_type node) "AveragePool" then
    match find_ceil_mode 0 (NodeProto.attribute node) with
    | Some i =>
        ({| NodeProto.name := NodeProto.name node;
            NodeProto.op_type := NodeProto.op_type node;
            NodeProto.input := NodeProto.input node;
            NodeProto.output := NodeProto.output node;
            NodeProto.attribute := delete i (NodeProto.attribute node) |},
         S patch_count)
    | None => (node, patch_count)
    end
  else (node, patch_count).

(** [for node in model.graph.node], threading [patch_count] *)
Fixpoint patch_nodes (nodes : list NodeProto.t) (patch_count : nat)
  : list NodeProto.t * nat :=
  match nodes with
  | [] => ([], patch_count)
  | node :: rest =>
      let '(node', patch_count') := patch_node node patch_count in
      let '(rest', patch_count'') := patch_nodes rest patch_count' in
      (node' :: rest', patch_count'')
  end.

(** The model after the loop, with the final [patch_count] *)
Definition patch_model (model : ModelProto.t) : ModelProto.t * nat :=
  let g := ModelProto.graph model in
  let '(nodes', patch_count) := patch_nodes (GraphProto.node g) 0 in
  ({| ModelProto.ir_version := ModelProto.ir_version model;
      ModelProto.graph :=
        {| GraphProto.node := nodes';
           GraphProto.initializer := GraphProto.initializer g |} |},
   patch_count).

Definition patch_ceil_mode (model_path output_path : string) : M nat :=
  model <- onnx_load model_path ;;
  let '(model', patch_count) := patch_model model in
  (if Nat.ltb 0 patch_count then onnx_save model' output_path else ret tt) ;;
  ret patch_count.

Definition DET_MODEL_URL : string :=
  "https://huggingface.co/fofr/comfyui/resolve/main/insightface/models/buffalo_l/det_10g.onnx".

(** The branch on [len(sys.argv)] of [patch_det10g.main] *)
Definition patch_paths (argv : list string) : M (string * string) :=
  match argv with
  | _ :: a1 :: a2 :: _ => ret (a1, a2)
  | [_; a1] => ret (a1, PyStr.replace ".onnx" "_patched.onnx" a1)
  | _ =>
      let input_path := "det_10g.onnx"%string in
      let output_path := "det_10g_patched.onnx"%string in
      ex <- path_exists input_path ;;
      (if negb ex then download_model DET_MODEL_URL input_path else ret tt) ;;
      ret (input_path, output_path)
  end.

Definition patch_main (argv : list string) : M unit :=
  paths <- patch_paths argv ;;
  let '(input_path, output_path) := paths in
  ex <- path_exists input_path ;;
  if negb ex then sys_exit 1
  else
    patch_count <- patch_ceil_mode input_path output_path ;;
    ret tt.

End Scripts.

(** ** A byte format for models

    A small length-prefixed format that instantiates the [Onnx]
    collaborator, so that the scripts can be run on concrete files.
    Every value is decoded from the front of the input and the rest of
    the input is handed on. *)

Module Wire.

Record codec (A : Type) := Codec {
  enc : A -> list Z;
  dec : list Z -> option (A * list Z)
}.
Arguments Codec {A} _ _.
Arguments enc {A} _ _.
Arguments dec {A} _ _.

(** A natural number [n] is [n / 255] bytes [255] and then the byte
    [n mod 255]. *)
Definition enc_nat (n : nat) : list Z :=
  repeat 255 (n / 255)%nat ++ [Z.of_nat (n mod 255)].

Fixpoint dec_nat (l : list Z) : option (nat * list Z) :=
  match l with
  | [] => None
  | b :: rest =>
      if b =? 255 then
        match dec_nat rest with
        | Some (m, rest') => Some ((255 + m)%nat, rest')
        | None => None
        end
      else Some (Z.to_nat b, rest)
  end.

Definition c_nat : codec nat := Codec enc_nat dec_nat.

(** The value of little-endian base-256 digits *)
Definition from_le (digits : list Z) : Z :=
  fold_right (fun b acc => b + 256 * acc) 0 digits.

(** Number of bytes that hold the non-negative [a] *)
Definition byte_len (a : Z) : nat := Z.to_nat (Z.log2 a / 8 + 1).

(** An integer is a sign byte, the number of digits and the digits of
    its absolute value. *)
Definition enc_Z (z : Z) : list Z :=
  let a := Z.abs z in
  (if z <? 0 then 1 else 0) :: enc_nat (byte_len a) ++ le_bytes (byte_len a) a.

Definition dec_Z (l : list Z) : option (Z * list Z) :=
  match l with
  | [] => None
  | sign :: rest =>
      match dec_nat rest with
      | None => None
      | Some (k, rest') =>
          if (length rest' <? k)%nat then None
          else
            let a := from_le (firstn k rest') in
            Some (if sign =? 1 then - a else a, skipn k rest')
      end
  end.

Definition c_Z : codec Z := Codec enc_Z dec_Z.

Definition c_pair {A B} (ca : codec A) (cb : codec B) : codec (A * B) :=
  Codec
    (fun p => enc ca (fst p) ++ enc cb (snd p))
    (fun l =>
       match dec ca l with
       | None => None
       | Some (a, l') =>
           match dec cb l' with
           | None => None
           | Some (b, l'') => Some ((a, b), l'')
           end
       end).

Fixpoint dec_n {A} (d : list Z -> option (A * list Z)) (n : nat) (l : list Z)
  : option (list A * list Z) :=
  match n with
  | O => Some ([], l)
  | S n' =>
      match d l with
      | None => None
      | Some (x, l') =>
          match dec_n d n' l' with
          | None => None
          | Some (xs, l'') => Some (x :: xs, l'')
          end
      end
  end.

(** A list is its length and then its elements. *)
Definition c_list {A} (c : codec A) : codec (list A) :=
  Codec
    (fun xs => enc_nat (length xs) ++ flat_map (enc c) xs)
    (fun l =>
       match dec_nat l with
       | None => None
       | Some (n, l') => dec_n (dec c) n l'
       end).

(** Transport along a pair of conversions *)
Definition c_iso {A B} (f : B -> A) (g : A -> B) (c : codec A) : codec B :=
  Codec
    (fun b => enc c (f b))
    (fun l =>
       match dec c l with
       | None => None
       | Some (a, l') => Some (g a, l')
       end).

Definition c_ascii : codec ascii :=
  Codec (fun c => [Z.of_nat (nat_of_ascii c)])
        (fun l => match l with
                  | [] => None
                  | b :: rest => Some (ascii_of_nat (Z.to_nat b), rest)
                  end).

Definition c_string : codec string :=
  c_iso list_ascii_of_string string_of_list_ascii (c_list c_ascii).

Definition dtype_tag (d : dtype) : Z :=
  match d with
  | float32 => 1 | uint8 => 2 | int8 => 3 | uint16 => 4 | int16 => 5
  | int32 => 6 | int64 => 7 | bool_ => 9 | float16 => 10 | float64 => 11
  | uint32 => 12 | uint64 => 13
  end.

Definition dtype_of_tag (z : Z) : option dtype :=
  match z with
  | 1 => Some float32 | 2 => Some uint8 | 3 => Some int8 | 4 => Some uint16
  | 5 => Some int16 | 6 => Some int32 | 7 => Some int64 | 9 => Some bool_
  | 10 => Some float16 | 11 => Some float64 | 12 => Some uint32
  | 13 => Some uint64
  | _ => None
  end.

Definition c_dtype : codec dtype :=
  Codec (fun d => [dtype_tag d])
        (fun l => match l with
                  | [] => None
                  | b :: rest =>
                      match dtype_of_tag b with
                      | Some d => Some (d, rest)
                      | None => None
                      end
                  end).

Definition c_tensor : codec TensorProto.t :=
  c_iso
    (fun t => (TensorProto.name t, (TensorProto.dims t,
                (TensorProto.data_type t, TensorProto.data t))))
    (fun '(n, (d, (ty, xs))) => TensorProto.mk n d ty xs)
    (c_pair c_string (c_pair (c_list c_Z) (c_pair c_dtype (c_list c_Z)))).

Definition c_attribute : codec AttributeProto.t :=
  c_iso
    (fun a => (AttributeProto.name a, (AttributeProto.i a,
                (AttributeProto.s a, AttributeProto.ints a))))
    (fun '(n, (i, (s, xs))) => AttributeProto.mk n i s xs)
    (c_pair c_string (c_pair c_Z (c_pair c_string (c_list c_Z)))).

Definition c_node : codec NodeProto.t :=
  c_iso
    (fun n => (NodeProto.name n, (NodeProto.op_type n,
                (NodeProto.input n, (NodeProto.output n, NodeProto.attribute n)))))
    (fun '(n, (op, (i, (o, a)))) => NodeProto.mk n op i o a)
    (c_pair c_string (c_pair c_string
       (c_pair (c_list c_string) (c_pair (c_list c_string) (c_list c_attribute))))).

Definition c_graph : codec GraphProto.t :=
  c_iso
    (fun g => (GraphProto.node g, GraphProto.initializer g))
    (fun '(n, i) => GraphProto.mk n i)
    (c_pair (c_list c_node) (c_list c_tensor)).

Definition c_model : codec ModelProto.t :=
  c_iso
    (fun m => (ModelProto.ir_version m, ModelProto.graph m))
    (fun '(v, g) => ModelProto.mk v g)
    (c_pair c_Z c_graph).

(** A file is a model when it decodes with nothing left over. *)
Definition parse_model (bytes : list Z) : option ModelProto.t :=
  match dec c_model bytes with
  | Some (m, []) => Some m
  | _ => None
  end.

Definition serialize_model (m : ModelProto.t) : list Z := enc c_model m.

End Wire.

#[local] Instance wire_onnx : Onnx :=
  {| parse := Wire.parse_model; serialize := Wire.serialize_model |}.

(** A machine without network access *)
#[local] Instance offline : Requests :=
  {| http_get := fun _ => Failed ConnectionError |}.

(** A stand-in for numpy, for running the scripts on examples: the low 32
    bits of an element, and no shape with a negative entry accepted. *)
#[local] Instance low_bits : Numpy :=
  {| convert_float32 := fun _ w => Z.land w (Z.ones 32);
     infer_shape := fun _ _ => None |}.

(** ** Vocabulary of the specification *)

(** The float32 little-endian encoding of a sequence of values, each
    given as its binary32 bit pattern: four bytes per value, lowest
    first, values in order, nothing before, between or after. *)
Definition float32_le (w : Z) : list Z :=
  [w mod 256; w / 256 mod 256; w / 65536 mod 256; w / 16777216 mod 256].

Definition float32_le_encoding (values : list Z) : list Z :=
  concat (map float32_le values).

(** The float32 value of an element of dtype [d] *)
Definition as_float32 {np : Numpy} (d : dtype) (w : Z) : Z :=
  match d with
  | float32 => w
  | _ => convert_float32 d w
  end.

(** An initializer satisfies neither selection rule. *)
Definition no_rule (t : TensorProto.t) : Prop :=
  name_match t = false /\ shape_match t = false.

Definition AveragePool : string := "AveragePool".
Definition ceil_mode : string := "ceil_mode".

Definition is_ceil_mode (a : AttributeProto.t) : bool :=
  String.eqb (AttributeProto.name a) ceil_mode.

Definition is_AveragePool (n : NodeProto.t) : bool :=
  String.eqb (NodeProto.op_type n) AveragePool.

(** Number of attributes of a node named [ceil_mode] *)
Definition ceil_modes (n : NodeProto.t) : nat :=
  length (List.filter is_ceil_mode (NodeProto.attribute n)).

(** [n] with another attribute list *)
Definition with_attribute (n : NodeProto.t) (attrs : list AttributeProto.t)
  : NodeProto.t :=
  {| NodeProto.name := NodeProto.name n;
     NodeProto.op_type := NodeProto.op_type n;
     NodeProto.input := NodeProto.input n;
     NodeProto.output := NodeProto.output n;
     NodeProto.attribute := attrs |}.

(** A node without its [ceil_mode] attributes when it is an
    [AveragePool], as it is otherwise *)
Definition strip_ceil_mode (n : NodeProto.t) : NodeProto.t :=
  if is_AveragePool n
  then with_attribute n
         (List.filter (fun a => negb (is_ceil_mode a)) (NodeProto.attribute n))
  else n.

(** Number of attributes in a list of nodes *)
Definition attribute_count (nodes : list NodeProto.t) : nat :=
  length (flat_map NodeProto.attribute nodes).

(** Number of [AveragePool] nodes with exactly [k] attributes named
    [ceil_mode] *)
Definition pools_with (k : nat) (nodes : list NodeProto.t) : nat :=
  length (List.filter (fun n => is_AveragePool n && Nat.eqb (ceil_modes n) k) nodes).

(** No [AveragePool] node carries a [ceil_mode] attribute. *)
Definition no_ceil_mode (nodes : list NodeProto.t) : Prop :=
  Forall (fun n => is_AveragePool n = true ->
                   Forall (fun a => is_ceil_mode a = false) (NodeProto.attribute n))
    nodes.

(** ** Example inputs *)

(** The number of elements of a 512 x 512 matrix. It is sealed: the
    example matrices below are never enumerated element by element. *)
Lemma elements_512x512 : { n : nat | Z.of_nat n = 512 * 512 }.
Proof. exists (Z.to_nat (512 * 512)). apply Z2Nat.id. discriminate. Qed.

(** 262,144 times the bit pattern of 0.0 *)
Definition zeros : list Z := repeat 0 (proj1_sig elements_512x512).

(** 262,144 times the bit pattern of 1.0 *)
Definition ones : list Z := repeat 1065353216 (proj1_sig elements_512x512).

Definition weight_512 : TensorProto.t :=
  TensorProto.mk "onnx::MatMul_7" [512; 512] float32 zeros.

Definition emap_512 : TensorProto.t :=
  TensorProto.mk "emap" [512; 512] float32 ones.

Definition Emap_2 : TensorProto.t :=
  TensorProto.mk "Emap" [2] float32 [0; 1065353216].

Definition emap_2x2 : TensorProto.t :=
  TensorProto.mk "emap" [2; 2] float64 [0; 0; 0; 0].


Definition bias_4 : TensorProto.t :=
  TensorProto.mk "conv1.bias" [4] float32 [0; 0; 0; 0].

Definition model_of (nodes : list NodeProto.t) (inits : list TensorProto.t)
  : ModelProto.t :=
  ModelProto.mk 8 (GraphProto.mk nodes inits).

Definition attr_int (name : string) (i : Z) : AttributeProto.t :=
  AttributeProto.mk name i "" [].

Definition attr_ints (name : string) (ints : list Z) : AttributeProto.t :=
  AttributeProto.mk name 0 "" ints.

Definition pool_ceil : NodeProto.t :=
  NodeProto.mk "pool1" "AveragePool" ["x"%string] ["y"%string]
    [attr_ints "kernel_shape" [2; 2]; attr_int "ceil_mode" 1;
     attr_ints "strides" [2; 2]].

Definition pool_plain : NodeProto.t :=
  NodeProto.mk "pool2" "AveragePool" ["y"%string] ["z"%string]
    [attr_ints "kernel_shape" [2; 2]].

Definition pool_twice : NodeProto.t :=
  NodeProto.mk "pool3" "AveragePool" ["y"%string] ["z"%string]
    [attr_int "ceil_mode" 1; attr_ints "kernel_shape" [2; 2];
     attr_int "ceil_mode" 0].

Definition maxpool_ceil : NodeProto.t :=
  NodeProto.mk "pool4" "MaxPool" ["z"%string] ["u"%string]
    [attr_int "ceil_mode" 1].

Definition det_model : ModelProto.t :=
  model_of [pool_ceil; pool_plain; maxpool_ceil] [bias_4].

(** A file system holding one model file *)
Definition fs_of (path : string) (m : ModelProto.t) : gmap string (list Z) :=
  {[ path := serialize m ]}.

Definition pool_ceil_patched : NodeProto.t :=
  NodeProto.mk "pool1" "AveragePool" ["x"%string] ["y"%string]
    [attr_ints "kernel_shape" [2; 2]; attr_ints "strides" [2; 2]].

Definition det_model_patched : ModelProto.t :=
  model_of [pool_ceil_patched; pool_plain; maxpool_ceil] [bias_4].

Definition pool_twice_once : NodeProto.t :=
  NodeProto.mk "pool3" "AveragePool" ["y"%string] ["z"%string]
    [attr_ints "kernel_shape" [2; 2]; attr_int "ceil_mode" 0].

Definition pool_twice_none : NodeProto.t :=
  NodeProto.mk "pool3" "AveragePool" ["y"%string] ["z"%string]
    [attr_ints "kernel_shape" [2; 2]].

(** A server that answers one URL with [body] and any other with an
    error status *)
Definition serve (url : string) (body : list Z) : Requests :=
  {| http_get := fun u => if String.eqb u url then Body body
                          else Failed HTTPError |}.

(** Some attribute of the node is named [ceil_mode]. *)
Definition has_ceil_mode (n : NodeProto.t) : bool :=
  existsb is_ceil_mode (NodeProto.attribute n).

(** The output path of the patcher for the arguments after the input
    path *)
Definition patch_output (input : string) (rest : list string) : string :=
  match rest with
  | [] => PyStr.replace ".onnx" "_patched.onnx" input
  | output :: _ => output
  end.

(** A tensor named "emap" that announces 2 x 2 elements and holds 3 *)
Definition emap_short : TensorProto.t :=
  TensorProto.mk "emap" [2; 2] float32 [0; 0; 0].

(** A server whose answer to one URL breaks off after [received] *)
Definition flaky (url : string) (received : list Z) : Requests :=
  {| http_get := fun u => if String.eqb u url then Broken received ConnectionError
                          else Failed HTTPError |}.

(** * Properties *)

(** ** The byte format round-trips *)

Definition codec_ok {A} (c : Wire.codec A) : Prop :=
  forall x rest, Wire.dec c (Wire.enc c x ++ rest) = Some (x, rest).

Lemma dec_nat_lacing k r rest :
  (r < 255)%nat ->
  Wire.dec_nat (repeat 255 k ++ Z.of_nat r :: rest) = Some ((255 * k + r)%nat, rest).
Proof.
  intros Hr. induction k as [|k IH].
  - cbn [repeat app Wire.dec_nat].
    destruct (Z.eqb_spec (Z.of_nat r) 255) as [E|_]; [lia|].
    rewrite Nat2Z.id. reflexivity.
  - cbn [repeat app Wire.dec_nat]. rewrite Z.eqb_refl, IH.
    do 2 f_equal. lia.
Qed.

Lemma c_nat_ok : codec_ok Wire.c_nat.
Proof.
  intros n rest. cbn [Wire.c_nat Wire.enc Wire.dec]. unfold Wire.enc_nat.
  rewrite <- app_assoc. cbn [app].
  rewrite dec_nat_lacing by (apply Nat.mod_upper_bound; discriminate).
  do 2 f_equal. symmetry. apply Nat.div_mod_eq.
Qed.

Lemma le_bytes_length k w : length (le_bytes k w) = k.
Proof. unfold le_bytes. rewrite length_map, length_seq. reflexivity. Qed.

Lemma le_bytes_S k w :
  le_bytes (S k) w = w mod 256 :: le_bytes k (w / 256).
Proof.
  unfold le_bytes. cbn [seq map]. f_equal.
  - change (8 * Z.of_nat 0) with 0. rewrite Z.shiftr_0_r.
    change 255 with (Z.ones 8). apply Z.land_ones. lia.
  - rewrite <- seq_shift, map_map. apply map_ext. intros j.
    f_equal. change 256 with (2 ^ 8).
    rewrite <- (Z.shiftr_div_pow2 w 8), Z.shiftr_shiftr by lia.
    f_equal. lia.
Qed.

Lemma from_le_bytes k : forall a, 0 <= a < 256 ^ Z.of_nat k ->
  Wire.from_le (le_bytes k a) = a.
Proof.
  induction k as [|k IH]; intros a Ha.
  - cbn in Ha. cbn. lia.
  - rewrite le_bytes_S. cbn [Wire.from_le fold_right].
    fold (Wire.from_le (le_bytes k (a / 256))).
    rewrite IH.
    + pose proof (Z.div_mod a 256). lia.
    + rewrite Nat2Z.inj_succ, Z.pow_succ_r in Ha by lia.
      split; [apply Z.div_pos; lia|].
      apply Z.div_lt_upper_bound; lia.
Qed.

Lemma byte_len_bound a : 0 <= a -> a < 256 ^ Z.of_nat (Wire.byte_len a).
Proof.
  intros Ha. unfold Wire.byte_len.
  assert (0 <= Z.log2 a) by apply Z.log2_nonneg.
  assert (0 <= Z.log2 a / 8) by (apply Z.div_pos; lia).
  rewrite Z2Nat.id by lia.
  change 256 with (2 ^ 8). rewrite <- Z.pow_mul_r by lia.
  destruct (Z.eq_dec a 0) as [->|Hne].
  - apply Z.pow_pos_nonneg; lia.
  - apply Z.lt_le_trans with (2 ^ Z.succ (Z.log2 a)).
    + apply Z.log2_spec. lia.
    + apply Z.pow_le_mono_r; [lia|].
      pose proof (Z.div_mod (Z.log2 a) 8).
      pose proof (Z.mod_pos_bound (Z.log2 a) 8). lia.
Qed.

Lemma c_Z_ok : codec_ok Wire.c_Z.
Proof.
  intros z rest. cbn [Wire.c_Z Wire.enc Wire.dec].
  unfold Wire.enc_Z, Wire.dec_Z. cbn [app].
  rewrite <- app_assoc.
  pose proof (c_nat_ok (Wire.byte_len (Z.abs z))
                (le_bytes (Wire.byte_len (Z.abs z)) (Z.abs z) ++ rest)) as Hn.
  cbn [Wire.c_nat Wire.enc Wire.dec] in Hn. rewrite Hn.
  rewrite length_app, le_bytes_length.
  destruct (Nat.ltb_spec (Wire.byte_len (Z.abs z) + length rest)
              (Wire.byte_len (Z.abs z))) as [Hlt|_]; [lia|].
  rewrite firstn_app, le_bytes_length, Nat.sub_diag, firstn_O, app_nil_r.
  rewrite firstn_all2 by (rewrite le_bytes_length; lia).
  rewrite skipn_app, le_bytes_length, Nat.sub_diag, skipn_O.
  rewrite skipn_all2 by (rewrite le_bytes_length; lia).
  cbn [app].
  rewrite from_le_bytes
    by (split; [apply Z.abs_nonneg | apply byte_len_bound, Z.abs_nonneg]).
  destruct (Z.ltb_spec z 0); cbn; do 2 f_equal; lia.
Qed.

Lemma c_pair_ok {A B} (ca : Wire.codec A) (cb : Wire.codec B) :
  codec_ok ca -> codec_ok cb -> codec_ok (Wire.c_pair ca cb).
Proof.
  intros Ha Hb [a b] rest. cbn [Wire.c_pair Wire.enc Wire.dec fst snd].
  rewrite <- app_assoc, Ha, Hb. reflexivity.
Qed.

Lemma dec_n_flat_map {A} (c : Wire.codec A) :
  codec_ok c ->
  forall xs rest,
    Wire.dec_n (Wire.dec c) (length xs) (flat_map (Wire.enc c) xs ++ rest)
    = Some (xs, rest).
Proof.
  intros Hc xs. induction xs as [|x xs IH]; intros rest.
  - reflexivity.
  - cbn [length flat_map Wire.dec_n]. rewrite <- app_assoc, Hc, IH.
    reflexivity.
Qed.

Lemma c_list_ok {A} (c : Wire.codec A) : codec_ok c -> codec_ok (Wire.c_list c).
Proof.
  intros Hc xs rest. cbn [Wire.c_list Wire.enc Wire.dec].
  rewrite <- app_assoc.
  pose proof (c_nat_ok (length xs) (flat_map (Wire.enc c) xs ++ rest)) as Hn.
  cbn [Wire.c_nat Wire.enc Wire.dec] in Hn. rewrite Hn.
  apply dec_n_flat_map, Hc.
Qed.

Lemma c_iso_ok {A B} (f : B -> A) (g : A -> B) (c : Wire.codec A) :
  (forall b, g (f b) = b) -> codec_ok c -> codec_ok (Wire.c_iso f g c).
Proof.
  intros Hgf Hc b rest. cbn [Wire.c_iso Wire.enc Wire.dec].
  rewrite Hc, Hgf. reflexivity.
Qed.

Lemma c_ascii_ok : codec_ok Wire.c_ascii.
Proof.
  intros c rest. cbn [Wire.c_ascii Wire.enc Wire.dec app].
  rewrite Nat2Z.id, ascii_nat_embedding. reflexivity.
Qed.

Lemma c_string_ok : codec_ok Wire.c_string.
Proof.
  apply c_iso_ok; [apply string_of_list_ascii_of_string|].
  apply c_list_ok, c_ascii_ok.
Qed.

Lemma c_dtype_ok : codec_ok Wire.c_dtype.
Proof. intros d rest. destruct d; reflexivity. Qed.

Create HintDb codec.
#[local] Hint Resolve c_nat_ok c_Z_ok c_pair_ok c_list_ok c_ascii_ok
  c_string_ok c_dtype_ok : codec.

Lemma c_tensor_ok : codec_ok Wire.c_tensor.
Proof. apply c_iso_ok; [intros []; reflexivity | auto 10 with codec]. Qed.

Lemma c_attribute_ok : codec_ok Wire.c_attribute.
Proof. apply c_iso_ok; [intros []; reflexivity | auto 10 with codec]. Qed.

#[local] Hint Resolve c_tensor_ok c_attribute_ok : codec.

Lemma c_node_ok : codec_ok Wire.c_node.
Proof. apply c_iso_ok; [intros []; reflexivity | auto 10 with codec]. Qed.

#[local] Hint Resolve c_node_ok : codec.

Lemma c_graph_ok : codec_ok Wire.c_graph.
Proof. apply c_iso_ok; [intros []; reflexivity | auto 10 with codec]. Qed.

#[local] Hint Resolve c_graph_ok : codec.

Lemma c_model_ok : codec_ok Wire.c_model.
Proof. apply c_iso_ok; [intros []; reflexivity | auto 10 with codec]. Qed.

(** Parsing what was serialised gives the model back. *)
Lemma parse_serialize (m : ModelProto.t) : parse (serialize m) = Some m.
Proof.
  cbn [parse serialize wire_onnx].
  unfold Wire.parse_model, Wire.serialize_model.
  rewrite <- (app_nil_r (Wire.enc Wire.c_model m)), c_model_ok. reflexivity.
Qed.

(** ** The extractor *)

Section ExtractFacts.
Context {np : Numpy} {onnx : Onnx} {requests : Requests}.

Lemma onnx_load_ok path fs bytes m :
  fs !! path = Some bytes -> parse bytes = Some m ->
  onnx_load path fs = (inr m, fs).
Proof. intros Hf Hp. unfold onnx_load. rewrite Hf, Hp. reflexivity. Qed.

Lemma path_exists_ok path (fs : gmap string (list Z)) bytes :
  fs !! path = Some bytes -> path_exists path fs = (inr true, fs).
Proof.
  intros Hf. unfold path_exists. rewrite bool_decide_eq_true_2; [reflexivity|].
  rewrite Hf. eauto.
Qed.

(** A well-formed tensor converts to the array of its dims. *)
Lemma to_array_wf t : wf_tensor t -> to_array t = inr (array_of t).
Proof.
  intros [Hd Hn]. unfold to_array.
  rewrite (proj2 (forallb_forall _ _)).
  - rewrite (proj2 (Z.eqb_eq _ _) Hn). reflexivity.
  - intros d Hin. apply Z.leb_le. rewrite List.Forall_forall in Hd. auto.
Qed.

(** With sizes as dims and another number of elements, [reshape]
    raises. *)
Lemma to_array_mismatch t :
  Forall (fun d => 0 <= d) (TensorProto.dims t) ->
  Z.of_nat (length (TensorProto.data t)) <> numel (TensorProto.dims t) ->
  to_array t = inl reshape_error.
Proof.
  intros Hd Hn. unfold to_array.
  rewrite (proj2 (forallb_forall _ _)).
  - rewrite (proj2 (Z.eqb_neq _ _) Hn). reflexivity.
  - intros d Hin. apply Z.leb_le. rewrite List.Forall_forall in Hd. auto.
Qed.

(** The scan stops at the first initializer that satisfies a rule. *)
Lemma scan_first pre t post :
  Forall no_rule pre ->
  name_match t = true \/ shape_match t = true ->
  scan_initializers (pre ++ t :: post) = Some (to_array t).
Proof.
  intros Hpre Ht. induction Hpre as [|u pre [Hn Hs] _ IH].
  - cbn [app scan_initializers].
    destruct (name_match t); [reflexivity|].
    destruct Ht as [Ht|Ht]; [discriminate|]. rewrite Ht. reflexivity.
  - cbn [app scan_initializers]. rewrite Hn, Hs. exact IH.
Qed.

Lemma scan_head t rest :
  name_match t = true \/ shape_match t = true ->
  scan_initializers (t :: rest) = Some (to_array t).
Proof. intros Ht. apply (scan_first [] t rest); [constructor | exact Ht]. Qed.

Lemma scan_None l : scan_initializers l = None <-> Forall no_rule l.
Proof.
  induction l as [|t l IH]; cbn [scan_initializers].
  - split; [constructor | reflexivity].
  - destruct (name_match t) eqn:Hn.
    { split; [discriminate|]. intros Hall. inversion Hall as [|? ? [Hn' _] _].
      congruence. }
    destruct (shape_match t) eqn:Hs.
    { split; [discriminate|]. intros Hall. inversion Hall as [|? ? [_ Hs'] _].
      congruence. }
    rewrite IH. split.
    + intros Hall. constructor; [split; assumption | exact Hall].
    + intros Hall. inversion Hall; assumption.
Qed.

Lemma scan_Some l :
  Exists (fun t => name_match t = true \/ shape_match t = true) l ->
  exists r, scan_initializers l = Some r.
Proof.
  intros Hex. destruct (scan_initializers l) as [r|] eqn:E; [eauto|].
  apply scan_None in E. exfalso.
  induction Hex as [t l [Ht|Ht] | t l _ IH].
  - inversion E as [|? ? [Hn _] _]. congruence.
  - inversion E as [|? ? [_ Hs] _]. congruence.
  - inversion E. auto.
Qed.

(** Whatever the scan yields is the outcome of [to_array] at the first
    initializer that satisfies a rule. *)
Lemma scan_returns l r :
  scan_initializers l = Some r ->
  exists pre t post,
    l = pre ++ t :: post
    /\ Forall no_rule pre
    /\ (name_match t = true \/ shape_match t = true)
    /\ to_array t = r.
Proof.
  induction l as [|u l IH]; cbn [scan_initializers]; [discriminate|].
  destruct (name_match u) eqn:Hn.
  { intros [= <-]. exists [], u, l. repeat split; auto. }
  destruct (shape_match u) eqn:Hs.
  { intros [= <-]. exists [], u, l. repeat split; auto. }
  intros Hl. destruct (IH Hl) as (pre & t & post & -> & Hpre & Ht & Hr).
  exists (u :: pre), t, post. repeat split; auto.
  constructor; [split; assumption | exact Hpre].
Qed.

(** The error of [to_array] is never the not-found error. *)
Lemma to_array_not_found t : to_array t <> inl not_found.
Proof.
  unfold to_array.
  destruct (forallb _ _); [destruct (_ =? _) | destruct (infer_shape _ _)];
    discriminate.
Qed.

Lemma extract_emap_run path fs bytes m :
  fs !! path = Some bytes -> parse bytes = Some m ->
  extract_emap path fs =
    match scan_initializers (GraphProto.initializer (ModelProto.graph m)) with
    | Some (inr emap) => (inr emap, fs)
    | Some (inl e) => (inl e, fs)
    | None => (inl not_found, fs)
    end.
Proof.
  intros Hf Hp. unfold extract_emap, bind.
  rewrite (onnx_load_ok _ _ _ _ Hf Hp).
  destruct (scan_initializers _) as [[e|emap]|]; reflexivity.
Qed.

Lemma extract_main_run prog input output rest fs bytes m :
  fs !! input = Some bytes -> parse bytes = Some m ->
  extract_main (prog :: input :: output :: rest) fs =
    match scan_initializers (GraphProto.initializer (ModelProto.graph m)) with
    | Some (inr emap) => (inr tt, <[output := tobytes (astype_float32 emap)]> fs)
    | Some (inl e) => (inl e, fs)
    | None => (inl not_found, fs)
    end.
Proof.
  intros Hf Hp. unfold extract_main, extract_paths, bind, ret.
  rewrite (path_exists_ok _ _ _ Hf). cbn [negb].
  fold (bind (extract_emap input) (fun emap => save_binary emap output)).
  unfold bind. rewrite (extract_emap_run _ _ _ _ Hf Hp).
  destruct (scan_initializers _) as [[e|emap]|]; reflexivity.
Qed.

Lemma le_bytes_4 w : le_bytes 4 w = float32_le w.
Proof.
  rewrite !le_bytes_S. unfold float32_le, le_bytes. cbn [seq map].
  rewrite !Z.div_div by lia. reflexivity.
Qed.

(** What [save_binary] writes is the float32 encoding of the elements. *)
Lemma tobytes_astype a :
  tobytes (astype_float32 a)
  = float32_le_encoding (map (as_float32 (ndarray.dtype_ a)) (ndarray.buffer a)).
Proof.
  unfold tobytes, astype_float32, float32_le_encoding.
  cbn [ndarray.dtype_ ndarray.buffer itemsize].
  rewrite flat_map_concat_map. f_equal.
  rewrite (map_ext _ _ le_bytes_4).
  destruct (ndarray.dtype_ a); cbn [as_float32];
    rewrite ?map_id; try reflexivity;
    rewrite (map_ext (fun w => w) id), map_id by reflexivity; reflexivity.
Qed.

Lemma float32_le_encoding_length values :
  Z.of_nat (length (float32_le_encoding values)) = 4 * Z.of_nat (length values).
Proof.
  unfold float32_le_encoding. induction values as [|w values IH].
  - reflexivity.
  - cbn [map concat]. rewrite length_app. cbn [float32_le length]. lia.
Qed.

Lemma tobytes_astype_length a :
  Z.of_nat (length (tobytes (astype_float32 a)))
  = 4 * Z.of_nat (length (ndarray.buffer a)).
Proof.
  rewrite tobytes_astype, float32_le_encoding_length, length_map. reflexivity.
Qed.

End ExtractFacts.

Section ExtractClaims.
Context {np : Numpy} {onnx : Onnx} {requests : Requests}.

(** C1, amended. Extraction makes one pass over the initializers and
    selects the first one, in document order, that satisfies either
    rule: a name match is selected when no earlier initializer matches
    by name or has shape [512,512], and a [512,512] tensor that comes
    first is selected whatever name matches follow it. There is no
    second scan. The selected tensor is returned when it is well formed,
    that is, when it has as many elements as its dims say. *)
Theorem extract_selects_first_match path fs bytes m pre t post :
  fs !! path = Some bytes -> parse bytes = Some m ->
  GraphProto.initializer (ModelProto.graph m) = pre ++ t :: post ->
  Forall no_rule pre ->
  name_match t = true \/ shape_match t = true ->
  wf_tensor t ->
  extract_emap path fs = (inr (array_of t), fs).
Proof.
  intros Hf Hp Hinit Hpre Ht Hwf.
  rewrite (extract_emap_run _ _ _ _ Hf Hp), Hinit, (scan_first _ _ _ Hpre Ht),
    (to_array_wf _ Hwf).
  reflexivity.
Qed.


(** C3, amended. For every model graph, extraction fails with the
    not-found error if and only if no initializer satisfies either
    selection rule (no name match and no [512,512] shape). If some
    initializer satisfies a rule and the first of them in document order
    is well formed, extraction returns its array and does not raise. *)
Theorem extract_fails_iff_no_candidate path fs bytes m :
  fs !! path = Some bytes -> parse bytes = Some m ->
  (fst (extract_emap path fs) = inl not_found
     <-> Forall no_rule (GraphProto.initializer (ModelProto.graph m)))
  /\ (forall pre t post,
        GraphProto.initializer (ModelProto.graph m) = pre ++ t :: post ->
        Forall no_rule pre ->
        name_match t = true \/ shape_match t = true ->
        wf_tensor t ->
        extract_emap path fs = (inr (array_of t), fs)).
Proof.
  intros Hf Hp. rewrite (extract_emap_run _ _ _ _ Hf Hp). split.
  - rewrite <- scan_None.
    destruct (scan_initializers _) as [[e|emap]|] eqn:E; cbn [fst];
      split; try congruence.
    intros [= ->]. exfalso.
    destruct (scan_returns _ _ E) as (pre & t & post & _ & _ & _ & Hr).
    exact (to_array_not_found _ Hr).
  - intros pre t post Hinit Hpre Ht Hwf.
    rewrite Hinit, (scan_first _ _ _ Hpre Ht), (to_array_wf _ Hwf).
    reflexivity.
Qed.


End ExtractClaims.

(** ** The extractor on example models *)

Lemma zeros_length : Z.of_nat (length zeros) = 262144.
Proof.
  unfold zeros. rewrite repeat_length. exact (proj2_sig elements_512x512).
Qed.

Lemma ones_length : Z.of_nat (length ones) = 262144.
Proof.
  unfold ones. rewrite repeat_length. exact (proj2_sig elements_512x512).
Qed.

Lemma fs_of_lookup path m : fs_of path m !! path = Some (serialize m).
Proof. unfold fs_of. apply lookup_singleton_eq. Qed.

Lemma wf_emap_512 : wf_tensor emap_512.
Proof. split; [repeat constructor; discriminate | exact ones_length]. Qed.

Lemma wf_weight_512 : wf_tensor weight_512.
Proof. split; [repeat constructor; discriminate | exact zeros_length]. Qed.


Lemma wf_Emap_2 : wf_tensor Emap_2.
Proof. split; [repeat constructor; discriminate | reflexivity]. Qed.


Lemma zeros_not_ones : zeros <> ones.
Proof.
  pose proof (proj2_sig elements_512x512) as Hn.
  unfold zeros, ones.
  destruct (proj1_sig elements_512x512); [discriminate Hn|].
  cbn [repeat]. discriminate.
Qed.

Lemma weight_not_emap : array_of weight_512 <> array_of emap_512.
Proof.
  intros E. apply (f_equal ndarray.buffer) in E. exact (zeros_not_ones E).
Qed.

Lemma extract_selects_first_match_witness :
  extract_emap "model.onnx"
    (fs_of "model.onnx" (model_of [] [bias_4; weight_512; emap_512]))
  = (inr (array_of weight_512),
     fs_of "model.onnx" (model_of [] [bias_4; weight_512; emap_512])).
Proof.
  apply extract_selects_first_match
    with (bytes := serialize (model_of [] [bias_4; weight_512; emap_512]))
         (m := model_of [] [bias_4; weight_512; emap_512])
         (pre := [bias_4]) (post := [emap_512]).
  - apply fs_of_lookup.
  - apply parse_serialize.
  - reflexivity.
  - constructor; [split; reflexivity | constructor].
  - right. reflexivity.
  - exact wf_weight_512.
Defined.

(** C1 fails as stated: with a [512,512] tensor that does not match by
    name placed before the tensor named "emap", extraction returns the
    earlier tensor. *)
Lemma name_priority_counterexample :
  let m := model_of [] [weight_512; emap_512] in
  name_match emap_512 = true
  /\ name_match weight_512 = false
  /\ TensorProto.dims weight_512 = [512; 512]
  /\ wf_tensor weight_512 /\ wf_tensor emap_512
  /\ extract_emap "model.onnx" (fs_of "model.onnx" m)
     = (inr (array_of weight_512), fs_of "model.onnx" m)
  /\ extract_emap "model.onnx" (fs_of "model.onnx" m)
     <> (inr (array_of emap_512), fs_of "model.onnx" m).
Proof.
  intros m.
  assert (E : extract_emap "model.onnx" (fs_of "model.onnx" m)
              = (inr (array_of weight_512), fs_of "model.onnx" m)).
  { rewrite (extract_emap_run _ _ _ m (fs_of_lookup _ _) (parse_serialize _)).
    unfold m, model_of. cbn [ModelProto.graph GraphProto.initializer].
    rewrite (scan_head weight_512) by (right; reflexivity).
    rewrite (to_array_wf _ wf_weight_512). reflexivity. }
  do 3 (split; [reflexivity|]).
  split; [exact wf_weight_512|]. split; [exact wf_emap_512|].
  split; [exact E|].
  rewrite E. intros E'. apply weight_not_emap. congruence.
Qed.



Lemma extract_fails_iff_no_candidate_witness :
  (fst (extract_emap "model.onnx"
          (fs_of "model.onnx" (model_of [] [bias_4; Emap_2])))
   = inl not_found
   <-> Forall no_rule
         (GraphProto.initializer
            (ModelProto.graph (model_of [] [bias_4; Emap_2]))))
  /\ extract_emap "model.onnx" (fs_of "model.onnx" (model_of [] [bias_4; Emap_2]))
     = (inr (array_of Emap_2),
        fs_of "model.onnx" (model_of [] [bias_4; Emap_2])).
Proof.
  destruct (extract_fails_iff_no_candidate "model.onnx"
              (fs_of "model.onnx" (model_of [] [bias_4; Emap_2]))
              (serialize (model_of [] [bias_4; Emap_2]))
              (model_of [] [bias_4; Emap_2])
              (fs_of_lookup _ _) (parse_serialize _)) as [Hiff Hret].
  split; [exact Hiff|].
  apply (Hret [bias_4] Emap_2 []).
  - reflexivity.
  - constructor; [split; reflexivity | constructor].
  - left. reflexivity.
  - exact wf_Emap_2.
Defined.

(** C3 fails as stated: a graph whose only initializer is named "emap",
    says [2,2] and holds 3 elements has an initializer that satisfies the
    name rule, and extraction raises the error of [reshape]. *)
Lemma malformed_candidate_counterexample :
  let m := model_of [] [emap_short] in
  Exists (fun t => name_match t = true \/ shape_match t = true)
    (GraphProto.initializer (ModelProto.graph m))
  /\ extract_emap "model.onnx" (fs_of "model.onnx" m)
     = (inl reshape_error, fs_of "model.onnx" m)
  /\ (forall emap,
        extract_emap "model.onnx" (fs_of "model.onnx" m)
        <> (inr emap, fs_of "model.onnx" m))
  /\ reshape_error <> not_found.
Proof.
  intros m.
  assert (E : extract_emap "model.onnx" (fs_of "model.onnx" m)
              = (inl reshape_error, fs_of "model.onnx" m)).
  { rewrite (extract_emap_run _ _ _ m (fs_of_lookup _ _) (parse_serialize _)).
    reflexivity. }
  split; [constructor; left; reflexivity|]. split; [exact E|].
  split; [|discriminate]. intros emap. rewrite E. discriminate.
Qed.



(** ** The patcher *)

Section PatchFacts.
Context {onnx : Onnx} {requests : Requests}.

Local Open Scope nat_scope.

Lemma find_ceil_mode_None i attrs :
  find_ceil_mode i attrs = None
  <-> Forall (fun a => is_ceil_mode a = false) attrs.
Proof.
  revert i. induction attrs as [|a attrs IH]; intros i; cbn [find_ceil_mode].
  - split; [constructor | reflexivity].
  - fold ceil_mode. fold (is_ceil_mode a). destruct (is_ceil_mode a) eqn:Ha.
    + split; [discriminate|]. intros Hall. inversion Hall. congruence.
    + rewrite IH. split.
      * intros Hall. constructor; assumption.
      * intros Hall. inversion Hall. assumption.
Qed.

(** The inner loop stops at the first attribute named [ceil_mode]. *)
Lemma find_ceil_mode_Some i attrs k :
  find_ceil_mode i attrs = Some k ->
  exists pre a post,
    attrs = pre ++ a :: post
    /\ k = i + length pre
    /\ is_ceil_mode a = true
    /\ Forall (fun b => is_ceil_mode b = false) pre.
Proof.
  revert i. induction attrs as [|a attrs IH]; intros i; cbn [find_ceil_mode].
  - discriminate.
  - fold ceil_mode. fold (is_ceil_mode a). destruct (is_ceil_mode a) eqn:Ha.
    + intros [= <-]. exists [], a, attrs. cbn. repeat split; auto.
    + intros Hk. destruct (IH _ Hk) as (pre & b & post & -> & -> & Hb & Hpre).
      exists (a :: pre), b, post. cbn [app length].
      repeat split; auto; lia.
Qed.

Lemma find_ceil_mode_Exists attrs :
  Exists (fun a => is_ceil_mode a = true) attrs ->
  exists k, find_ceil_mode 0 attrs = Some k.
Proof.
  intros Hex. destruct (find_ceil_mode 0 attrs) eqn:E; [eauto|].
  apply find_ceil_mode_None in E. exfalso.
  induction Hex as [a l Ha | a l _ IH]; inversion E; [congruence | auto].
Qed.

Lemma with_attribute_same n : with_attribute n (NodeProto.attribute n) = n.
Proof. destruct n. reflexivity. Qed.

(** The three cases of the loop body *)
Lemma patch_node_other n c : is_AveragePool n = false -> patch_node n c = (n, c).
Proof.
  unfold is_AveragePool, AveragePool, patch_node. intros ->. reflexivity.
Qed.

Lemma patch_node_plain n c :
  Forall (fun a => is_ceil_mode a = false) (NodeProto.attribute n) ->
  patch_node n c = (n, c).
Proof.
  intros Hall. apply (find_ceil_mode_None 0) in Hall.
  unfold patch_node. rewrite Hall. destruct (String.eqb _ _); reflexivity.
Qed.

Lemma patch_node_first n c pre a post :
  is_AveragePool n = true ->
  NodeProto.attribute n = pre ++ a :: post ->
  is_ceil_mode a = true ->
  Forall (fun b => is_ceil_mode b = false) pre ->
  patch_node n c = (with_attribute n (pre ++ post), S c).
Proof.
  intros Hop Hattr Ha Hpre. unfold patch_node.
  unfold is_AveragePool, AveragePool in Hop. rewrite Hop.
  destruct (find_ceil_mode 0 (NodeProto.attribute n)) as [k|] eqn:E.
  - destruct (find_ceil_mode_Some _ _ _ E)
      as (pre' & a' & post' & Hattr' & -> & Ha' & Hpre').
    assert (pre' = pre /\ a' = a /\ post' = post) as (-> & -> & ->).
    { rewrite Hattr in Hattr'. clear - Hattr' Ha Ha' Hpre Hpre'.
      revert pre' Hattr' Hpre'.
      induction Hpre as [|b pre Hb _ IH]; intros pre' Heq Hpre'.
      - destruct pre' as [|b' pre']; cbn [app] in Heq.
        + injection Heq as -> ->. auto.
        + injection Heq as -> _. inversion Hpre'. congruence.
      - destruct pre' as [|b' pre']; cbn [app] in Heq.
        + injection Heq as -> _. congruence.
        + injection Heq as -> Heq. inversion Hpre'; subst.
          destruct (IH _ Heq) as (-> & -> & ->); auto. }
    cbn [Nat.add]. rewrite Hattr, delete_middle. reflexivity.
  - apply find_ceil_mode_None in E. rewrite Hattr in E.
    apply Forall_app in E as [_ E]. inversion E. congruence.
Qed.

(** The count only ever grows by what the node contributes. *)
Lemma patch_node_count n c :
  patch_node n c = (fst (patch_node n 0), c + snd (patch_node n 0)).
Proof.
  unfold patch_node. destruct (String.eqb _ _); [|cbn; f_equal; lia].
  destruct (find_ceil_mode 0 _); cbn [fst snd]; f_equal; lia.
Qed.

Lemma patch_nodes_app l1 l2 c :
  patch_nodes (l1 ++ l2) c
  = (fst (patch_nodes l1 c) ++ fst (patch_nodes l2 (snd (patch_nodes l1 c))),
     snd (patch_nodes l2 (snd (patch_nodes l1 c)))).
Proof.
  revert c. induction l1 as [|n l1 IH]; intros c.
  - cbn [app patch_nodes fst snd]. destruct (patch_nodes l2 c). reflexivity.
  - cbn [app patch_nodes]. destruct (patch_node n c) as [n' c'].
    rewrite IH. destruct (patch_nodes l1 c') as [l1' c1].
    cbn [fst snd]. destruct (patch_nodes l2 c1). reflexivity.
Qed.

Lemma patch_nodes_cons n l c :
  patch_nodes (n :: l) c
  = (fst (patch_node n c) :: fst (patch_nodes l (snd (patch_node n c))),
     snd (patch_nodes l (snd (patch_node n c)))).
Proof.
  cbn [patch_nodes]. destruct (patch_node n c) as [n' c']. cbn [fst snd].
  destruct (patch_nodes l c'). reflexivity.
Qed.

(** The loop as a map over the nodes and a sum of contributions *)
Lemma patch_nodes_map nodes c :
  patch_nodes nodes c
  = (map (fun n => fst (patch_node n 0)) nodes,
     c + list_sum (map (fun n => snd (patch_node n 0)) nodes)).
Proof.
  revert c. induction nodes as [|n nodes IH]; intros c.
  - cbn. f_equal. lia.
  - rewrite patch_nodes_cons, (patch_node_count n c). cbn [fst snd].
    rewrite IH. cbn [fst snd map]. f_equal.
    unfold list_sum. cbn [fold_right]. lia.
Qed.

Lemma patch_model_eq m :
  patch_model m
  = ({| ModelProto.ir_version := ModelProto.ir_version m;
        ModelProto.graph :=
          {| GraphProto.node :=
               fst (patch_nodes (GraphProto.node (ModelProto.graph m)) 0);
             GraphProto.initializer :=
               GraphProto.initializer (ModelProto.graph m) |} |},
     snd (patch_nodes (GraphProto.node (ModelProto.graph m)) 0)).
Proof. unfold patch_model. destruct (patch_nodes _ 0). reflexivity. Qed.

Lemma patch_ceil_mode_run input output fs bytes m :
  fs !! input = Some bytes -> parse bytes = Some m ->
  patch_ceil_mode input output fs
  = (inr (snd (patch_model m)),
     if Nat.ltb 0 (snd (patch_model m))
     then <[output := serialize (fst (patch_model m))]> fs
     else fs).
Proof.
  intros Hf Hp. unfold patch_ceil_mode, bind.
  rewrite (onnx_load_ok _ _ _ _ Hf Hp).
  destruct (patch_model m) as [m' c]. cbn [fst snd].
  destruct (Nat.ltb 0 c); reflexivity.
Qed.

End PatchFacts.

Section PatchClaims.
Context {onnx : Onnx} {requests : Requests}.

Local Open Scope nat_scope.

Lemma filter_ceil_nil l :
  Forall (fun a => is_ceil_mode a = false) l <-> List.filter is_ceil_mode l = [].
Proof.
  induction l as [|a l IH]; cbn [List.filter].
  - split; [reflexivity | constructor].
  - destruct (is_ceil_mode a) eqn:Ha.
    + split; [|discriminate]. intros Hall. inversion Hall. congruence.
    + rewrite <- IH. split.
      * intros Hall. inversion Hall. assumption.
      * intros Hall. constructor; assumption.
Qed.

Lemma filter_not_ceil_id l :
  Forall (fun a => is_ceil_mode a = false) l ->
  List.filter (fun a => negb (is_ceil_mode a)) l = l.
Proof.
  induction 1 as [|a l Ha _ IH]; cbn [List.filter]; [reflexivity|].
  rewrite Ha, IH. reflexivity.
Qed.

Lemma filter_ceil_not_ceil l :
  List.filter is_ceil_mode (List.filter (fun a => negb (is_ceil_mode a)) l) = [].
Proof.
  induction l as [|a l IH]; cbn [List.filter]; [reflexivity|].
  destruct (is_ceil_mode a) eqn:Ha; cbn [negb List.filter]; [exact IH|].
  rewrite Ha. exact IH.
Qed.

Lemma filter_length_split l :
  length (List.filter (fun a => negb (is_ceil_mode a)) l)
  + length (List.filter is_ceil_mode l) = length l.
Proof.
  induction l as [|a l IH]; cbn [List.filter length]; [reflexivity|].
  destruct (is_ceil_mode a); cbn [negb length]; lia.
Qed.

(** On a node with at most one [ceil_mode], the loop body removes every
    attribute of that name and counts as many. *)
Lemma patch_node_strip n :
  (is_AveragePool n = true -> ceil_modes n <= 1) ->
  patch_node n 0
  = (strip_ceil_mode n, if is_AveragePool n then ceil_modes n else 0).
Proof.
  intros Hone. unfold strip_ceil_mode.
  destruct (is_AveragePool n) eqn:Hop; [|apply patch_node_other, Hop].
  specialize (Hone eq_refl). unfold ceil_modes in *.
  destruct (find_ceil_mode 0 (NodeProto.attribute n)) as [k|] eqn:E.
  - destruct (find_ceil_mode_Some _ _ _ E)
      as (pre & a & post & Hattr & _ & Ha & Hpre).
    rewrite (patch_node_first n 0 pre a post Hop Hattr Ha Hpre).
    rewrite Hattr in *. rewrite !List.filter_app in *.
    cbn [List.filter] in *. rewrite Ha in *. cbn [negb] in *.
    rewrite (filter_not_ceil_id pre Hpre).
    rewrite (proj1 (filter_ceil_nil pre) Hpre) in *.
    cbn [app length] in *.
    assert (Hpost : List.filter is_ceil_mode post = []).
    { destruct (List.filter is_ceil_mode post); [reflexivity|].
      cbn [length] in Hone. lia. }
    rewrite Hpost. rewrite (filter_not_ceil_id post); [reflexivity|].
    apply filter_ceil_nil, Hpost.
  - apply find_ceil_mode_None in E.
    rewrite (patch_node_plain n 0 E), (filter_not_ceil_id _ E).
    rewrite with_attribute_same, (proj1 (filter_ceil_nil _) E). reflexivity.
Qed.

Lemma strip_AveragePool n : is_AveragePool (strip_ceil_mode n) = is_AveragePool n.
Proof.
  unfold strip_ceil_mode. destruct (is_AveragePool n) eqn:Hop; [|exact Hop].
  exact Hop.
Qed.

Lemma strip_ceil_modes n :
  is_AveragePool n = true -> ceil_modes (strip_ceil_mode n) = 0.
Proof.
  intros Hop. unfold strip_ceil_mode, ceil_modes. rewrite Hop.
  cbn [with_attribute NodeProto.attribute].
  rewrite filter_ceil_not_ceil. reflexivity.
Qed.

Lemma strip_attribute_length n :
  length (NodeProto.attribute (strip_ceil_mode n))
  + (if is_AveragePool n then ceil_modes n else 0)
  = length (NodeProto.attribute n).
Proof.
  unfold strip_ceil_mode, ceil_modes. destruct (is_AveragePool n); [|lia].
  cbn [with_attribute NodeProto.attribute]. apply filter_length_split.
Qed.

Lemma patch_nodes_strip nodes :
  Forall (fun n => is_AveragePool n = true -> ceil_modes n <= 1) nodes ->
  patch_nodes nodes 0 = (map strip_ceil_mode nodes, pools_with 1 nodes)
  /\ attribute_count (map strip_ceil_mode nodes) + pools_with 1 nodes
     = attribute_count nodes
  /\ pools_with 0 (map strip_ceil_mode nodes)
     = pools_with 1 nodes + pools_with 0 nodes.
Proof.
  intros Hall. rewrite patch_nodes_map. unfold pools_with, attribute_count.
  induction Hall as [|n nodes Hn _ (IH1 & IH2 & IH3)].
  - repeat split.
  - injection IH1 as IHm IHc.
    pose proof (patch_node_strip n Hn) as Hp.
    pose proof (strip_attribute_length n) as Hlen.
    pose proof (strip_AveragePool n) as Hop'.
    cbn [map List.filter flat_map]. unfold list_sum in *. cbn [fold_right].
    rewrite !length_app, Hp, IHm, Hop'. cbn [fst snd].
    destruct (is_AveragePool n) eqn:Hop; cbn [andb length].
    + rewrite (strip_ceil_modes n Hop). cbn [Nat.eqb length].
      specialize (Hn eq_refl).
      destruct (ceil_modes n) as [|[|k]] eqn:Hk; cbn [Nat.eqb length];
        [| |lia]; (split; [f_equal; lia | split; lia]).
    + split; [f_equal; lia | split; lia].
Qed.

(** C4. In a graph where every [AveragePool] node carries one attribute
    named [ceil_mode] or none, with N nodes of the first kind and M of
    the second, patching returns patch count N and removes exactly N
    attributes; every node keeps its name, operator type, inputs,
    outputs and all attributes not named [ceil_mode], nodes of other
    operator types and all initializers are unchanged, and afterwards
    all N + M [AveragePool] nodes are without [ceil_mode]. *)
Theorem patch_removes_N input output fs bytes m N M :
  fs !! input = Some bytes -> parse bytes = Some m ->
  Forall (fun n => is_AveragePool n = true -> ceil_modes n <= 1)
    (GraphProto.node (ModelProto.graph m)) ->
  N = pools_with 1 (GraphProto.node (ModelProto.graph m)) ->
  M = pools_with 0 (GraphProto.node (ModelProto.graph m)) ->
  let m' := fst (patch_model m) in
  fst (patch_ceil_mode input output fs) = inr N
  /\ snd (patch_model m) = N
  /\ GraphProto.node (ModelProto.graph m')
     = map strip_ceil_mode (GraphProto.node (ModelProto.graph m))
  /\ attribute_count (GraphProto.node (ModelProto.graph m')) + N
     = attribute_count (GraphProto.node (ModelProto.graph m))
  /\ length (GraphProto.node (ModelProto.graph m'))
     = length (GraphProto.node (ModelProto.graph m))
  /\ pools_with 0 (GraphProto.node (ModelProto.graph m')) = N + M
  /\ GraphProto.initializer (ModelProto.graph m')
     = GraphProto.initializer (ModelProto.graph m)
  /\ ModelProto.ir_version m' = ModelProto.ir_version m.
Proof.
  intros Hf Hp Hall -> -> m'.
  destruct (patch_nodes_strip _ Hall) as (Hnodes & Hcount & Hpools).
  rewrite (patch_ceil_mode_run _ _ _ _ _ Hf Hp). subst m'.
  rewrite patch_model_eq, Hnodes.
  cbn [fst snd ModelProto.graph GraphProto.node GraphProto.initializer
         ModelProto.ir_version].
  rewrite length_map. repeat split; assumption.
Qed.

(** C5. An [AveragePool] node with one or more attributes named
    [ceil_mode] loses exactly the first of them in list order and no
    other attribute, and adds exactly 1 to the patch count; a node of
    another operator type is left as it is and adds nothing. Both hold
    for a node at any place in the graph. *)
Theorem patch_first_ceil_mode before n after c :
  let c1 := snd (patch_nodes before c) in
  (is_AveragePool n = true ->
   Exists (fun a => is_ceil_mode a = true) (NodeProto.attribute n) ->
   exists pre a post,
     NodeProto.attribute n = pre ++ a :: post
     /\ is_ceil_mode a = true
     /\ Forall (fun b => is_ceil_mode b = false) pre
     /\ patch_node n c1 = (with_attribute n (pre ++ post), S c1)
     /\ patch_nodes (before ++ n :: after) c
        = (fst (patch_nodes before c)
             ++ with_attribute n (pre ++ post)
             :: fst (patch_nodes after (S c1)),
           snd (patch_nodes after (S c1))))
  /\ (is_AveragePool n = false ->
      patch_node n c1 = (n, c1)
      /\ patch_nodes (before ++ n :: after) c
         = (fst (patch_nodes before c) ++ n :: fst (patch_nodes after c1),
            snd (patch_nodes after c1))).
Proof.
  intros c1. split.
  - intros Hop Hex. destruct (find_ceil_mode_Exists _ Hex) as [k Hk].
    destruct (find_ceil_mode_Some _ _ _ Hk)
      as (pre & a & post & Hattr & _ & Ha & Hpre).
    exists pre, a, post.
    pose proof (patch_node_first n c1 pre a post Hop Hattr Ha Hpre) as Hn.
    repeat split; try assumption.
    rewrite patch_nodes_app, patch_nodes_cons. fold c1. rewrite Hn.
    reflexivity.
  - intros Hop. pose proof (patch_node_other n c1 Hop) as Hn.
    split; [exact Hn|].
    rewrite patch_nodes_app, patch_nodes_cons. fold c1. rewrite Hn.
    reflexivity.
Qed.

Lemma patch_nodes_nothing nodes c :
  no_ceil_mode nodes -> patch_nodes nodes c = (nodes, c).
Proof.
  intros Hall. revert c. induction Hall as [|n nodes Hn _ IH]; intros c.
  - reflexivity.
  - rewrite patch_nodes_cons.
    assert (Hp : patch_node n c = (n, c)).
    { destruct (is_AveragePool n) eqn:Hop.
      - apply patch_node_plain, Hn. reflexivity.
      - apply patch_node_other, Hop. }
    rewrite Hp. cbn [fst snd]. rewrite IH. reflexivity.
Qed.

Lemma patch_model_nothing m :
  no_ceil_mode (GraphProto.node (ModelProto.graph m)) -> patch_model m = (m, 0).
Proof.
  intros Hall. rewrite patch_model_eq, (patch_nodes_nothing _ 0 Hall).
  destruct m as [v [nodes inits]]. reflexivity.
Qed.

Lemma patch_main_run prog input output rest fs bytes :
  fs !! input = Some bytes ->
  patch_main (prog :: input :: output :: rest) fs
  = match patch_ceil_mode input output fs with
    | (inl e, fs') => (inl e, fs')
    | (inr _, fs') => (inr tt, fs')
    end.
Proof.
  intros Hf. unfold patch_main, patch_paths, bind, ret.
  rewrite (path_exists_ok _ _ _ Hf). cbn [negb].
  destruct (patch_ceil_mode input output fs) as [[e|k] fs']; reflexivity.
Qed.

(** C7. When no [AveragePool] node of the graph carries a [ceil_mode]
    attribute, the patcher returns patch count 0 and leaves the file
    system as it was: no output file is written, and the script ends
    without error. *)
Theorem patch_nothing_to_do prog input output rest fs bytes m :
  fs !! input = Some bytes -> parse bytes = Some m ->
  no_ceil_mode (GraphProto.node (ModelProto.graph m)) ->
  patch_ceil_mode input output fs = (inr 0, fs)
  /\ patch_main (prog :: input :: output :: rest) fs = (inr tt, fs).
Proof.
  intros Hf Hp Hall.
  assert (E : patch_ceil_mode input output fs = (inr 0, fs)).
  { rewrite (patch_ceil_mode_run _ _ _ _ _ Hf Hp), (patch_model_nothing _ Hall).
    reflexivity. }
  split; [exact E|]. rewrite (patch_main_run _ _ _ _ _ _ Hf), E. reflexivity.
Qed.

Lemma strip_no_ceil_mode nodes : no_ceil_mode (map strip_ceil_mode nodes).
Proof.
  unfold no_ceil_mode. induction nodes as [|n nodes IH]; cbn [map];
    constructor; [|exact IH].
  rewrite strip_AveragePool. intros Hop. apply filter_ceil_nil.
  pose proof (strip_ceil_modes n Hop) as H0. unfold ceil_modes in H0.
  destruct (List.filter is_ceil_mode _); [reflexivity | discriminate H0].
Qed.

(** C6, amended. In a graph where no [AveragePool] node has more than
    one attribute named [ceil_mode], when a patch run has removed
    something and written its output, running the patcher on that output
    yields patch count 0 and writes no file: the file system, with the
    first output in it, is left as it was. Patching the patched graph
    again in memory changes nothing, so serialising it again would give
    the same bytes. *)
Theorem patch_again input out1 out2 fs bytes m :
  fs !! input = Some bytes -> parse bytes = Some m ->
  Forall (fun n => is_AveragePool n = true -> ceil_modes n <= 1)
    (GraphProto.node (ModelProto.graph m)) ->
  0 < snd (patch_model m) ->
  parse (serialize (fst (patch_model m))) = Some (fst (patch_model m)) ->
  let m1 := fst (patch_model m) in
  let fs1 := snd (patch_ceil_mode input out1 fs) in
  fs1 !! out1 = Some (serialize m1)
  /\ patch_ceil_mode out1 out2 fs1 = (inr 0, fs1)
  /\ patch_model m1 = (m1, 0).
Proof.
  intros Hf Hp Hall Hpos Hrt. cbv zeta.
  set (m1 := fst (patch_model m)) in *.
  set (fs1 := snd (patch_ceil_mode input out1 fs)).
  assert (Hm1 : patch_model m1 = (m1, 0)).
  { apply patch_model_nothing. subst m1.
    rewrite patch_model_eq.
    rewrite (proj1 (patch_nodes_strip _ Hall)).
    cbn [fst ModelProto.graph GraphProto.node]. apply strip_no_ceil_mode. }
  assert (Hout : fs1 !! out1 = Some (serialize m1)).
  { subst fs1. rewrite (patch_ceil_mode_run _ _ _ _ _ Hf Hp). cbn [snd].
    apply Nat.ltb_lt in Hpos. rewrite Hpos. fold m1. apply lookup_insert_eq. }
  split; [exact Hout|]. split; [|exact Hm1].
  rewrite (patch_ceil_mode_run _ _ _ _ _ Hout Hrt), Hm1. reflexivity.
Qed.

(** C8, amended. With exactly one command-line argument both tools
    take it as the input path. The extractor then writes to the fixed
    name "emap.bin", whatever the input path; the patcher writes to the
    input path with every ".onnx" in it replaced by "_patched.onnx",
    which depends on the input path. *)
Theorem one_argument_paths prog input fs :
  extract_paths [prog; input] fs = (inr (input, "emap.bin"%string), fs)
  /\ patch_paths [prog; input] fs
     = (inr (input, PyStr.replace ".onnx" "_patched.onnx" input), fs).
Proof. split; reflexivity. Qed.

End PatchClaims.

(** ** The patcher on example models *)

Example patch_det_model : patch_model det_model = (det_model_patched, 1%nat).
Proof. reflexivity. Qed.

Example patch_pool_twice :
  patch_model (model_of [pool_twice] []) = (model_of [pool_twice_once] [], 1%nat)
  /\ patch_model (model_of [pool_twice_once] [])
     = (model_of [pool_twice_none] [], 1%nat).
Proof. split; reflexivity. Qed.

Lemma det_model_at_most_one :
  Forall (fun n => is_AveragePool n = true -> (ceil_modes n <= 1)%nat)
    (GraphProto.node (ModelProto.graph det_model)).
Proof. repeat constructor. Qed.

Lemma patch_removes_N_witness :
  fst (patch_ceil_mode "det_10g.onnx" "det_10g_patched.onnx"
         (fs_of "det_10g.onnx" det_model)) = inr 1%nat
  /\ snd (patch_model det_model) = 1%nat
  /\ GraphProto.node (ModelProto.graph (fst (patch_model det_model)))
     = map strip_ceil_mode (GraphProto.node (ModelProto.graph det_model))
  /\ (attribute_count (GraphProto.node (ModelProto.graph (fst (patch_model det_model))))
      + 1
      = attribute_count (GraphProto.node (ModelProto.graph det_model)))%nat
  /\ length (GraphProto.node (ModelProto.graph (fst (patch_model det_model))))
     = length (GraphProto.node (ModelProto.graph det_model))
  /\ pools_with 0 (GraphProto.node (ModelProto.graph (fst (patch_model det_model))))
     = (1 + 1)%nat
  /\ GraphProto.initializer (ModelProto.graph (fst (patch_model det_model)))
     = GraphProto.initializer (ModelProto.graph det_model)
  /\ ModelProto.ir_version (fst (patch_model det_model))
     = ModelProto.ir_version det_model.
Proof.
  apply patch_removes_N with (bytes := serialize det_model).
  - apply fs_of_lookup.
  - apply parse_serialize.
  - exact det_model_at_most_one.
  - reflexivity.
  - reflexivity.
Defined.

Lemma patch_first_ceil_mode_witness :
  exists pre a post,
    NodeProto.attribute pool_twice = pre ++ a :: post
    /\ is_ceil_mode a = true
    /\ Forall (fun b => is_ceil_mode b = false) pre
    /\ patch_node pool_twice 0 = (with_attribute pool_twice (pre ++ post), 1%nat)
    /\ patch_nodes ([pool_plain] ++ pool_twice :: [maxpool_ceil]) 0
       = (fst (patch_nodes [pool_plain] 0)
            ++ with_attribute pool_twice (pre ++ post)
            :: fst (patch_nodes [maxpool_ceil] 1),
          snd (patch_nodes [maxpool_ceil] 1)).
Proof.
  apply (proj1 (patch_first_ceil_mode [pool_plain] pool_twice [maxpool_ceil] 0)).
  - reflexivity.
  - constructor. reflexivity.
Defined.

Lemma patch_nothing_to_do_witness :
  patch_ceil_mode "det_10g.onnx" "out.onnx"
    (fs_of "det_10g.onnx" (model_of [pool_plain; maxpool_ceil] [bias_4]))
  = (inr 0%nat, fs_of "det_10g.onnx" (model_of [pool_plain; maxpool_ceil] [bias_4]))
  /\ patch_main ["patch_det10g.py"; "det_10g.onnx"; "out.onnx"]%string
       (fs_of "det_10g.onnx" (model_of [pool_plain; maxpool_ceil] [bias_4]))
     = (inr tt, fs_of "det_10g.onnx" (model_of [pool_plain; maxpool_ceil] [bias_4])).
Proof.
  apply patch_nothing_to_do
    with (bytes := serialize (model_of [pool_plain; maxpool_ceil] [bias_4]))
         (m := model_of [pool_plain; maxpool_ceil] [bias_4]).
  - apply fs_of_lookup.
  - apply parse_serialize.
  - constructor; [|constructor; [|constructor]].
    + intros _. repeat constructor.
    + intros Hop. discriminate Hop.
Defined.

Lemma patch_again_witness :
  snd (patch_ceil_mode "det_10g.onnx" "det_10g_patched.onnx"
         (fs_of "det_10g.onnx" det_model)) !! "det_10g_patched.onnx"%string
  = Some (serialize (fst (patch_model det_model)))
  /\ patch_ceil_mode "det_10g_patched.onnx" "again.onnx"
       (snd (patch_ceil_mode "det_10g.onnx" "det_10g_patched.onnx"
               (fs_of "det_10g.onnx" det_model)))
     = (inr 0%nat,
        snd (patch_ceil_mode "det_10g.onnx" "det_10g_patched.onnx"
               (fs_of "det_10g.onnx" det_model)))
  /\ patch_model (fst (patch_model det_model)) = (fst (patch_model det_model), 0%nat).
Proof.
  apply patch_again with (bytes := serialize det_model).
  - apply fs_of_lookup.
  - apply parse_serialize.
  - exact det_model_at_most_one.
  - apply Nat.lt_0_1.
  - apply parse_serialize.
Defined.

(** C6 fails as stated, in two ways. The second run on a patched model
    returns 0 and writes nothing: there is no file at its output path.
    And when an [AveragePool] node carries two [ceil_mode] attributes, the
    second run finds the one left behind and returns 1. *)
Lemma patch_idempotent_counterexample :
  (let r1 := patch_ceil_mode "det.onnx" "out.onnx" (fs_of "det.onnx" det_model) in
   let r2 := patch_ceil_mode "out.onnx" "again.onnx" (snd r1) in
   fst r1 = inr 1%nat
   /\ snd r1 !! "out.onnx"%string = Some (serialize det_model_patched)
   /\ fst r2 = inr 0%nat
   /\ snd r2 !! "again.onnx"%string = None)
  /\ (let m := model_of [pool_twice] [] in
      let r1 := patch_ceil_mode "det.onnx" "out.onnx" (fs_of "det.onnx" m) in
      let r2 := patch_ceil_mode "out.onnx" "again.onnx" (snd r1) in
      fst r1 = inr 1%nat
      /\ fst r2 = inr 1%nat
      /\ snd r2 !! "again.onnx"%string <> snd r2 !! "out.onnx"%string).
Proof.
  split.
  - cbv zeta.
    rewrite (patch_ceil_mode_run "det.onnx" "out.onnx" _ _ det_model
               (fs_of_lookup _ _) (parse_serialize _)).
    rewrite patch_det_model. cbn [fst snd Nat.ltb Nat.leb].
    assert (Hout : (<["out.onnx"%string := serialize det_model_patched]>
                      (fs_of "det.onnx" det_model)) !! "out.onnx"%string
                   = Some (serialize det_model_patched))
      by apply lookup_insert_eq.
    rewrite (patch_ceil_mode_run "out.onnx" "again.onnx" _ _ det_model_patched
               Hout (parse_serialize _)).
    change (patch_model det_model_patched) with (det_model_patched, 0%nat).
    cbn [fst snd Nat.ltb Nat.leb].
    split; [reflexivity|]. split; [exact Hout|]. split; [reflexivity|].
    rewrite lookup_insert_ne by discriminate.
    unfold fs_of. apply lookup_singleton_ne. discriminate.
  - cbv zeta.
    rewrite (patch_ceil_mode_run "det.onnx" "out.onnx" _ _ (model_of [pool_twice] [])
               (fs_of_lookup _ _) (parse_serialize _)).
    rewrite (proj1 patch_pool_twice). cbn [fst snd Nat.ltb Nat.leb].
    assert (Hout : (<["out.onnx"%string := serialize (model_of [pool_twice_once] [])]>
                      (fs_of "det.onnx" (model_of [pool_twice] []))) !! "out.onnx"%string
                   = Some (serialize (model_of [pool_twice_once] [])))
      by apply lookup_insert_eq.
    rewrite (patch_ceil_mode_run "out.onnx" "again.onnx" _ _
               (model_of [pool_twice_once] []) Hout (parse_serialize _)).
    rewrite (proj2 patch_pool_twice). cbn [fst snd Nat.ltb Nat.leb].
    split; [reflexivity|]. split; [reflexivity|].
    rewrite lookup_insert_eq, lookup_insert_ne, Hout by discriminate.
    intros E.
    assert (E' : serialize (model_of [pool_twice_none] [])
                 = serialize (model_of [pool_twice_once] [])) by congruence.
    apply (f_equal parse) in E'. rewrite !parse_serialize in E'.
    discriminate E'.
Qed.

(** C8 fails as stated for the patcher: with one argument its output
    path follows the input path. *)
Lemma default_output_counterexample :
  patch_paths ["patch_det10g.py"; "a.onnx"]%string ∅
  = (inr ("a.onnx", "a_patched.onnx")%string, ∅)
  /\ patch_paths ["patch_det10g.py"; "b.onnx"]%string ∅
     = (inr ("b.onnx", "b_patched.onnx")%string, ∅)
  /\ "a_patched.onnx"%string <> "b_patched.onnx"%string.
Proof. repeat split. discriminate. Qed.
Example lower_EMAP : PyStr.lower "My_EMap.0" = "my_emap.0".
Proof. reflexivity. Qed.

Example contains_emap : PyStr.contains "emap" "my_emap.0" = true.
Proof. reflexivity. Qed.

Example contains_e_map : PyStr.contains "emap" "e_map" = false.
Proof. reflexivity. Qed.

Example replace_onnx :
  PyStr.replace ".onnx" "_patched.onnx" "m/det.onnx.bak.onnx"
  = "m/det_patched.onnx.bak_patched.onnx".
Proof. reflexivity. Qed.

Example replace_none : PyStr.replace ".onnx" "_patched.onnx" "model.bin" = "model.bin".
Proof. reflexivity. Qed.


(** ** More on the extractor: command line, download, errors, frame *)

Section ExtractMore.
Context {np : Numpy} {onnx : Onnx}.

Lemma path_exists_missing path (fs : gmap string (list Z)) :
  fs !! path = None -> path_exists path fs = (inr false, fs).
Proof.
  intros Hf. unfold path_exists. rewrite bool_decide_eq_false_2; [reflexivity|].
  rewrite Hf. intros [x Hx]. discriminate Hx.
Qed.

(** Arguments after the second are ignored, and a missing second argument
    stands for "emap.bin". *)
Lemma extract_main_args {requests : Requests} prog input rest fs :
  extract_main (prog :: input :: rest) fs
  = extract_main [prog; input; hd "emap.bin"%string rest] fs.
Proof. destruct rest; reflexivity. Qed.

(** With the input path given on the command line, the run is decided by
    the input file alone. *)
Lemma extract_main_cases {requests : Requests} prog input rest fs :
  extract_main (prog :: input :: rest) fs
  = match fs !! input with
    | None => (inl (SystemExit 1), fs)
    | Some bytes =>
        match parse bytes with
        | None => (inl ModelLoadError, fs)
        | Some m =>
            match scan_initializers (GraphProto.initializer (ModelProto.graph m)) with
            | Some (inr emap) =>
                (inr tt, <[hd "emap.bin"%string rest := tobytes (astype_float32 emap)]> fs)
            | Some (inl e) => (inl e, fs)
            | None => (inl not_found, fs)
            end
        end
    end.
Proof.
  rewrite extract_main_args.
  destruct (fs !! input) as [bytes|] eqn:Hf.
  - destruct (parse bytes) as [m|] eqn:Hp.
    + apply (extract_main_run _ _ _ _ _ _ _ Hf Hp).
    + unfold extract_main, extract_paths, bind, ret.
      rewrite (path_exists_ok _ _ _ Hf). cbn [negb].
      unfold extract_emap, bind, onnx_load. rewrite Hf, Hp. reflexivity.
  - unfold extract_main, extract_paths, bind, ret.
    rewrite (path_exists_missing _ _ Hf). reflexivity.
Qed.

(** X1. When the input path given on the command line does not exist,
    the extractor exits with status 1 and touches no file. *)
Theorem extract_main_missing_input {requests : Requests} prog input rest fs :
  fs !! input = None ->
  extract_main (prog :: input :: rest) fs = (inl (SystemExit 1), fs).
Proof. intros Hf. rewrite extract_main_cases, Hf. reflexivity. Qed.

(** X2. When the input file exists and is not a model, the extractor
    stops with the load error of [onnx.load] and writes nothing. *)
Theorem extract_main_not_a_model {requests : Requests} prog input rest fs bytes :
  fs !! input = Some bytes -> parse bytes = None ->
  extract_main (prog :: input :: rest) fs = (inl ModelLoadError, fs).
Proof. intros Hf Hp. rewrite extract_main_cases, Hf, Hp. reflexivity. Qed.

(** X3. A run of the extractor on a given input path that ends in an
    error, whichever it is, leaves every file as it was. *)
Theorem extract_main_error_keeps_files {requests : Requests} prog input rest fs e :
  fst (extract_main (prog :: input :: rest) fs) = inl e ->
  snd (extract_main (prog :: input :: rest) fs) = fs.
Proof.
  rewrite extract_main_cases.
  destruct (fs !! input) as [bytes|]; [|reflexivity].
  destruct (parse bytes) as [m|]; [|reflexivity].
  destruct (scan_initializers _) as [[e'|emap]|];
    [reflexivity | discriminate | reflexivity].
Qed.

(** X5. Without arguments, when "inswapper_128.onnx" is already in the
    working directory nothing is downloaded: the run is the one with the
    default paths given explicitly, whatever the network would answer. *)
Theorem extract_main_cached (r1 r2 : Requests) prog fs :
  is_Some (fs !! "inswapper_128.onnx"%string) ->
  extract_main (requests := r1) [prog] fs
  = extract_main (requests := r2) [prog; "inswapper_128.onnx"; "emap.bin"]%string fs.
Proof.
  intros [bytes Hf]. unfold extract_main, extract_paths, bind, ret.
  rewrite (path_exists_ok _ _ _ Hf). cbn [negb].
  rewrite (path_exists_ok _ _ _ Hf). reflexivity.
Qed.

(** X6. Without arguments and without a local model, a request that
    fails before the body arrives (no connection, an error status) ends
    the run with that error; no file is created. *)
Theorem extract_main_download_fails {requests : Requests} prog fs e :
  fs !! "inswapper_128.onnx"%string = None ->
  http_get EMAP_MODEL_URL = Failed e ->
  extract_main [prog] fs = (inl e, fs).
Proof.
  intros Hf Hget. unfold extract_main, extract_paths, bind, ret.
  rewrite (path_exists_missing _ _ Hf). cbn [negb].
  unfold download_model. rewrite Hget. reflexivity.
Qed.

(** X7. Without arguments and without a local model, a complete
    download is stored as "inswapper_128.onnx" and the run goes on as the
    run with the default paths on the file system that holds it. *)
Theorem extract_main_downloads {requests : Requests} prog fs body :
  fs !! "inswapper_128.onnx"%string = None ->
  http_get EMAP_MODEL_URL = Body body ->
  extract_main [prog] fs
  = extract_main [prog; "inswapper_128.onnx"; "emap.bin"]%string
      (<["inswapper_128.onnx"%string := body]> fs).
Proof.
  intros Hf Hget.
  assert (Hnew : (<["inswapper_128.onnx"%string := body]> fs)
                   !! "inswapper_128.onnx"%string = Some body)
    by apply lookup_insert_eq.
  unfold extract_main, extract_paths, bind, ret.
  rewrite (path_exists_missing _ _ Hf). cbn [negb].
  unfold download_model. rewrite Hget. unfold write_file.
  rewrite (path_exists_ok _ _ _ Hnew). reflexivity.
Qed.

(** X24. Without arguments and without a local model, a download that
    breaks after some bytes ends the run with the error of the stream and
    leaves the bytes received so far as "inswapper_128.onnx": nothing is
    cleaned up, and no output is written. *)
Theorem extract_main_download_breaks {requests : Requests} prog fs received e :
  fs !! "inswapper_128.onnx"%string = None ->
  http_get EMAP_MODEL_URL = Broken received e ->
  extract_main [prog] fs
  = (inl e, <["inswapper_128.onnx"%string := received]> fs).
Proof.
  intros Hf Hget. unfold extract_main, extract_paths, bind, ret.
  rewrite (path_exists_missing _ _ Hf). cbn [negb].
  unfold download_model. rewrite Hget. reflexivity.
Qed.

(** X25. After a download that broke, the next run without arguments
    finds the truncated file and does not download again, whatever the
    network would answer now: when what was received is not a model, it
    stops with the load error and leaves the truncated file in place. *)
Theorem extract_main_after_broken_download (r1 r2 : Requests) prog fs received e :
  fs !! "inswapper_128.onnx"%string = None ->
  http_get (Requests := r1) EMAP_MODEL_URL = Broken received e ->
  parse received = None ->
  extract_main (requests := r2) [prog]
    (snd (extract_main (requests := r1) [prog] fs))
  = (inl ModelLoadError, <["inswapper_128.onnx"%string := received]> fs).
Proof.
  intros Hf Hget Hp.
  assert (Hnew : (<["inswapper_128.onnx"%string := received]> fs)
                   !! "inswapper_128.onnx"%string = Some received)
    by apply lookup_insert_eq.
  assert (E1 : snd (extract_main (requests := r1) [prog] fs)
               = <["inswapper_128.onnx"%string := received]> fs).
  { unfold extract_main, extract_paths, bind, ret.
    rewrite (path_exists_missing _ _ Hf). cbn [negb].
    unfold download_model. rewrite Hget. reflexivity. }
  rewrite E1. unfold extract_main, extract_paths, bind, ret.
  rewrite (path_exists_ok _ _ _ Hnew). cbn [negb].
  rewrite (path_exists_ok _ _ _ Hnew). cbn [negb].
  unfold extract_emap, bind, onnx_load. rewrite Hnew, Hp. reflexivity.
Qed.

End ExtractMore.

(** ** More on the extractor: the selection rules and the file written *)

Section ExtractSelection.
Context {np : Numpy} {onnx : Onnx} {requests : Requests}.

(** X8. What the name rule accepts: a name whose lower-case form contains
    "emap", and besides these exactly the two names "e_map" and
    "embedding_map". The aliases "emap", "Emap" and "EMAP" add nothing, and
    the two others are matched in this spelling only. *)
Theorem name_match_iff t :
  name_match t = true
  <-> PyStr.contains "emap" (PyStr.lower (TensorProto.name t)) = true
      \/ TensorProto.name t = "e_map"%string
      \/ TensorProto.name t = "embedding_map"%string.
Proof.
  unfold name_match, PyStr.in_list, emap_names. cbn [existsb].
  set (n := TensorProto.name t).
  destruct (String.eqb_spec n "emap") as [->|_]; [cbn; tauto|].
  destruct (String.eqb_spec n "Emap") as [->|_]; [cbn; tauto|].
  destruct (String.eqb_spec n "EMAP") as [->|_]; [cbn; tauto|].
  destruct (String.eqb_spec n "e_map") as [->|He]; [cbn; tauto|].
  destruct (String.eqb_spec n "embedding_map") as [->|Hm]; [cbn; tauto|].
  cbn [orb]. tauto.
Qed.

(** X9. Whatever the scan returns is the array of an initializer of the
    graph that satisfies a rule and has no initializer satisfying a rule
    before it: extraction never returns anything else. *)
Theorem scan_returns_first_match l emap :
  scan_initializers l = Some (inr emap) ->
  exists pre t post,
    l = pre ++ t :: post
    /\ Forall no_rule pre
    /\ (name_match t = true \/ shape_match t = true)
    /\ to_array t = inr emap.
Proof. apply scan_returns. Qed.

Lemma shape_match_dims t : shape_match t = true <-> TensorProto.dims t = [512; 512].
Proof.
  unfold shape_match. split.
  - destruct (TensorProto.dims t) as [|d0 [|d1 [|d2 ds]]]; try discriminate.
    intros Hd. apply andb_true_iff in Hd as [H0 H1].
    apply Z.eqb_eq in H0, H1. congruence.
  - intros ->. reflexivity.
Qed.

(** X10. When the first initializer to satisfy a rule has shape
    [512,512], whatever its name and dtype, the file written has exactly
    1,048,576 bytes. *)
Theorem shape_match_file_size prog input output rest fs bytes m pre t post :
  fs !! input = Some bytes -> parse bytes = Some m ->
  GraphProto.initializer (ModelProto.graph m) = pre ++ t :: post ->
  Forall no_rule pre ->
  shape_match t = true ->
  wf_tensor t ->
  exists file,
    extract_main (prog :: input :: output :: rest) fs
      = (inr tt, <[output := file]> fs)
    /\ Z.of_nat (length file) = 1048576.
Proof.
  intros Hf Hp Hinit Hpre Hs Hwf. eexists. split.
  - rewrite (extract_main_run _ _ _ _ _ _ _ Hf Hp), Hinit,
      (scan_first _ _ _ Hpre (or_intror Hs)), (to_array_wf _ Hwf). reflexivity.
  - rewrite tobytes_astype_length. cbn [array_of ndarray.buffer].
    apply shape_match_dims in Hs. rewrite (proj2 Hwf), Hs. reflexivity.
Qed.

Lemma flat_map_le_bytes_inj l1 : forall l2,
  Forall (fun w => 0 <= w < 2 ^ 32) l1 ->
  Forall (fun w => 0 <= w < 2 ^ 32) l2 ->
  flat_map (le_bytes 4) l1 = flat_map (le_bytes 4) l2 ->
  l1 = l2.
Proof.
  induction l1 as [|w1 l1 IH]; intros [|w2 l2] H1 H2 E; cbn [flat_map] in E.
  - reflexivity.
  - rewrite le_bytes_S in E. discriminate E.
  - rewrite le_bytes_S in E. discriminate E.
  - apply app_inj_1 in E as [Ew El];
      [|rewrite !le_bytes_length; reflexivity].
    inversion H1 as [|? ? Hw1 H1']. inversion H2 as [|? ? Hw2 H2']. subst.
    f_equal; [|apply IH; assumption].
    rewrite <- (from_le_bytes 4 w1), <- (from_le_bytes 4 w2), Ew
      by (change (256 ^ Z.of_nat 4) with (2 ^ 32); assumption).
    reflexivity.
Qed.

(** X11. A float32 matrix is written without loss: two float32 arrays
    that give the same file have the same elements. *)
Theorem float32_file_lossless a b :
  ndarray.dtype_ a = float32 -> ndarray.dtype_ b = float32 ->
  Forall (fun w => 0 <= w < 2 ^ 32) (ndarray.buffer a) ->
  Forall (fun w => 0 <= w < 2 ^ 32) (ndarray.buffer b) ->
  tobytes (astype_float32 a) = tobytes (astype_float32 b) ->
  ndarray.buffer a = ndarray.buffer b.
Proof.
  intros Ha Hb Hra Hrb E. unfold tobytes, astype_float32 in E.
  cbn [ndarray.dtype_ ndarray.buffer itemsize] in E. rewrite Ha, Hb in E.
  apply flat_map_le_bytes_inj; assumption.
Qed.

(** X26. When the first initializer to satisfy a rule has sizes as dims
    and another number of elements, the run stops with the error of
    [reshape] and writes nothing; initializers after it are not tried,
    whatever they are. *)
Theorem extract_main_malformed prog input output rest fs bytes m pre t post :
  fs !! input = Some bytes -> parse bytes = Some m ->
  GraphProto.initializer (ModelProto.graph m) = pre ++ t :: post ->
  Forall no_rule pre ->
  name_match t = true \/ shape_match t = true ->
  Forall (fun d => 0 <= d) (TensorProto.dims t) ->
  Z.of_nat (length (TensorProto.data t)) <> numel (TensorProto.dims t) ->
  extract_main (prog :: input :: output :: rest) fs = (inl reshape_error, fs).
Proof.
  intros Hf Hp Hinit Hpre Ht Hd Hn.
  rewrite (extract_main_run _ _ _ _ _ _ _ Hf Hp), Hinit,
    (scan_first _ _ _ Hpre Ht), (to_array_mismatch _ Hd Hn).
  reflexivity.
Qed.

End ExtractSelection.

(** ** More on the patcher: command line, download, errors, frame *)

Section PatchMore.
Context {onnx : Onnx}.

Local Open Scope nat_scope.

(** With the input path given on the command line, the run is decided by
    the input file alone. *)
Lemma patch_main_cases {requests : Requests} prog input rest fs :
  patch_main (prog :: input :: rest) fs
  = match fs !! input with
    | None => (inl (SystemExit 1%Z), fs)
    | Some bytes =>
        match parse bytes with
        | None => (inl ModelLoadError, fs)
        | Some m =>
            (inr tt,
             if Nat.ltb 0 (snd (patch_model m))
             then <[patch_output input rest := serialize (fst (patch_model m))]> fs
             else fs)
        end
    end.
Proof.
  assert (Hargs : patch_main (prog :: input :: rest) fs
                  = patch_main [prog; input; patch_output input rest] fs)
    by (destruct rest; reflexivity).
  rewrite Hargs. clear Hargs.
  destruct (fs !! input) as [bytes|] eqn:Hf.
  - rewrite (patch_main_run _ _ _ _ _ _ Hf).
    destruct (parse bytes) as [m|] eqn:Hp.
    + rewrite (patch_ceil_mode_run _ _ _ _ _ Hf Hp). reflexivity.
    + unfold patch_ceil_mode, bind, onnx_load. rewrite Hf, Hp. reflexivity.
  - unfold patch_main, patch_paths, bind, ret.
    rewrite (path_exists_missing _ _ Hf). reflexivity.
Qed.

(** X12. When the input path given on the command line does not exist,
    the patcher exits with status 1 and touches no file. *)
Theorem patch_main_missing_input {requests : Requests} prog input rest fs :
  fs !! input = None ->
  patch_main (prog :: input :: rest) fs = (inl (SystemExit 1%Z), fs).
Proof. intros Hf. rewrite patch_main_cases, Hf. reflexivity. Qed.

(** X13. When the input file exists and is not a model, the patcher
    stops with the load error of [onnx.load] and writes nothing. *)
Theorem patch_main_not_a_model {requests : Requests} prog input rest fs bytes :
  fs !! input = Some bytes -> parse bytes = None ->
  patch_main (prog :: input :: rest) fs = (inl ModelLoadError, fs).
Proof. intros Hf Hp. rewrite patch_main_cases, Hf, Hp. reflexivity. Qed.

(** X15. A run of the patcher on a given input path that ends in an
    error leaves every file as it was. *)
Theorem patch_main_error_keeps_files {requests : Requests} prog input rest fs e :
  fst (patch_main (prog :: input :: rest) fs) = inl e ->
  snd (patch_main (prog :: input :: rest) fs) = fs.
Proof.
  rewrite patch_main_cases.
  destruct (fs !! input) as [bytes|]; [|reflexivity].
  destruct (parse bytes) as [m|]; [discriminate | reflexivity].
Qed.

(** X16. Without arguments, when "det_10g.onnx" is already in the working
    directory nothing is downloaded: the run is the one with the default
    paths given explicitly, whatever the network would answer. *)
Theorem patch_main_cached (r1 r2 : Requests) prog fs :
  is_Some (fs !! "det_10g.onnx"%string) ->
  patch_main (requests := r1) [prog] fs
  = patch_main (requests := r2)
      [prog; "det_10g.onnx"; "det_10g_patched.onnx"]%string fs.
Proof.
  intros [bytes Hf]. unfold patch_main, patch_paths, bind, ret.
  rewrite (path_exists_ok _ _ _ Hf). cbn [negb].
  rewrite (path_exists_ok _ _ _ Hf). reflexivity.
Qed.

(** X17. Without arguments and without a local model, a request that
    fails before the body arrives (no connection, an error status) ends
    the run with that error; no file is created. *)
Theorem patch_main_download_fails {requests : Requests} prog fs e :
  fs !! "det_10g.onnx"%string = None ->
  http_get DET_MODEL_URL = Failed e ->
  patch_main [prog] fs = (inl e, fs).
Proof.
  intros Hf Hget. unfold patch_main, patch_paths, bind, ret.
  rewrite (path_exists_missing _ _ Hf). cbn [negb].
  unfold download_model. rewrite Hget. reflexivity.
Qed.

(** X18. Without arguments and without a local model, a complete
    download is stored as "det_10g.onnx" and the run goes on as the run
    with the default paths on the file system that holds it. *)
Theorem patch_main_downloads {requests : Requests} prog fs body :
  fs !! "det_10g.onnx"%string = None ->
  http_get DET_MODEL_URL = Body body ->
  patch_main [prog] fs
  = patch_main [prog; "det_10g.onnx"; "det_10g_patched.onnx"]%string
      (<["det_10g.onnx"%string := body]> fs).
Proof.
  intros Hf Hget.
  assert (Hnew : (<["det_10g.onnx"%string := body]> fs)
                   !! "det_10g.onnx"%string = Some body)
    by apply lookup_insert_eq.
  unfold patch_main, patch_paths, bind, ret.
  rewrite (path_exists_missing _ _ Hf). cbn [negb].
  unfold download_model. rewrite Hget. unfold write_file.
  rewrite (path_exists_ok _ _ _ Hnew). reflexivity.
Qed.

(** X27. Without arguments and without a local model, a download that
    breaks after some bytes ends the run with the error of the stream and
    leaves the bytes received so far as "det_10g.onnx": nothing is cleaned
    up, and no patched model is written. *)
Theorem patch_main_download_breaks {requests : Requests} prog fs received e :
  fs !! "det_10g.onnx"%string = None ->
  http_get DET_MODEL_URL = Broken received e ->
  patch_main [prog] fs = (inl e, <["det_10g.onnx"%string := received]> fs).
Proof.
  intros Hf Hget. unfold patch_main, patch_paths, bind, ret.
  rewrite (path_exists_missing _ _ Hf). cbn [negb].
  unfold download_model. rewrite Hget. reflexivity.
Qed.

(** X28. After a download that broke, the next run without arguments
    finds the truncated file and does not download again, whatever the
    network would answer now: when what was received is not a model, it
    stops with the load error and leaves the truncated file in place. *)
Theorem patch_main_after_broken_download (r1 r2 : Requests) prog fs received e :
  fs !! "det_10g.onnx"%string = None ->
  http_get (Requests := r1) DET_MODEL_URL = Broken received e ->
  parse received = None ->
  patch_main (requests := r2) [prog]
    (snd (patch_main (requests := r1) [prog] fs))
  = (inl ModelLoadError, <["det_10g.onnx"%string := received]> fs).
Proof.
  intros Hf Hget Hp.
  assert (Hnew : (<["det_10g.onnx"%string := received]> fs)
                   !! "det_10g.onnx"%string = Some received)
    by apply lookup_insert_eq.
  assert (E1 : snd (patch_main (requests := r1) [prog] fs)
               = <["det_10g.onnx"%string := received]> fs).
  { unfold patch_main, patch_paths, bind, ret.
    rewrite (path_exists_missing _ _ Hf). cbn [negb].
    unfold download_model. rewrite Hget. reflexivity. }
  rewrite E1. unfold patch_main, patch_paths, bind, ret.
  rewrite (path_exists_ok _ _ _ Hnew). cbn [negb].
  rewrite (path_exists_ok _ _ _ Hnew). cbn [negb].
  unfold patch_ceil_mode, bind, onnx_load. rewrite Hnew, Hp. reflexivity.
Qed.

End PatchMore.

(** ** More on the patcher: what a run keeps and what it counts *)

Section PatchInvariants.
Context {onnx : Onnx} {requests : Requests}.

Local Open Scope nat_scope.

Lemma has_ceil_mode_false n :
  has_ceil_mode n = false
  <-> Forall (fun a => is_ceil_mode a = false) (NodeProto.attribute n).
Proof.
  unfold has_ceil_mode. induction (NodeProto.attribute n) as [|a l IH];
    cbn [existsb].
  - split; [constructor | reflexivity].
  - rewrite orb_false_iff, IH. split.
    + intros [Ha Hl]. constructor; assumption.
    + intros Hall. inversion Hall. split; assumption.
Qed.

(** The effect of the loop body on one node, in every case *)
Lemma patch_node_effect n :
  exists attrs,
    fst (patch_node n 0) = with_attribute n attrs
    /\ length attrs + snd (patch_node n 0) = length (NodeProto.attribute n)
    /\ snd (patch_node n 0)
       = if is_AveragePool n && has_ceil_mode n then 1 else 0.
Proof.
  destruct (is_AveragePool n) eqn:Hop; cbn [andb].
  - destruct (find_ceil_mode 0 (NodeProto.attribute n)) as [k|] eqn:E.
    + destruct (find_ceil_mode_Some _ _ _ E)
        as (pre & a & post & Hattr & _ & Ha & Hpre).
      rewrite (patch_node_first n 0 pre a post Hop Hattr Ha Hpre).
      exists (pre ++ post). cbn [fst snd]. split; [reflexivity|]. split.
      * rewrite Hattr, !length_app. cbn [length]. lia.
      * destruct (has_ceil_mode n) eqn:Hh; [reflexivity|].
        apply has_ceil_mode_false in Hh. rewrite Hattr in Hh.
        apply Forall_app in Hh as [_ Hh]. inversion Hh. congruence.
    + apply find_ceil_mode_None in E. rewrite (patch_node_plain n 0 E).
      exists (NodeProto.attribute n). cbn [fst snd].
      rewrite with_attribute_same, (proj2 (has_ceil_mode_false n) E).
      repeat split. lia.
  - rewrite (patch_node_other n 0 Hop). exists (NodeProto.attribute n).
    cbn [fst snd]. rewrite with_attribute_same. repeat split. lia.
Qed.

(** X19. On every graph, patching keeps the nodes in number and order,
    each with its name, operator type, inputs and outputs, keeps the
    initializers and the version, and removes exactly as many attributes
    as the patch count it returns. *)
Theorem patch_model_keeps m :
  let nodes := GraphProto.node (ModelProto.graph m) in
  let nodes' := GraphProto.node (ModelProto.graph (fst (patch_model m))) in
  map NodeProto.name nodes' = map NodeProto.name nodes
  /\ map NodeProto.op_type nodes' = map NodeProto.op_type nodes
  /\ map NodeProto.input nodes' = map NodeProto.input nodes
  /\ map NodeProto.output nodes' = map NodeProto.output nodes
  /\ attribute_count nodes' + snd (patch_model m) = attribute_count nodes
  /\ GraphProto.initializer (ModelProto.graph (fst (patch_model m)))
     = GraphProto.initializer (ModelProto.graph m)
  /\ ModelProto.ir_version (fst (patch_model m)) = ModelProto.ir_version m.
Proof.
  cbv zeta. rewrite patch_model_eq, patch_nodes_map.
  cbn [fst snd ModelProto.graph GraphProto.node GraphProto.initializer
         ModelProto.ir_version].
  unfold attribute_count.
  induction (GraphProto.node (ModelProto.graph m)) as [|n nodes IH].
  - repeat split.
  - destruct IH as (I1 & I2 & I3 & I4 & I5 & _).
    destruct (patch_node_effect n) as (attrs & Hn & Hlen & _).
    cbn [map flat_map]. unfold list_sum in *. cbn [fold_right].
    rewrite !length_app, Hn, I1, I2, I3, I4.
    cbn [with_attribute NodeProto.name NodeProto.op_type NodeProto.input
           NodeProto.output NodeProto.attribute].
    repeat split. lia.
Qed.

Lemma patch_nodes_count nodes :
  snd (patch_nodes nodes 0)
  = length (List.filter (fun n => is_AveragePool n && has_ceil_mode n) nodes).
Proof.
  rewrite patch_nodes_map. cbn [snd]. unfold list_sum.
  induction nodes as [|n nodes IH]; [reflexivity|].
  destruct (patch_node_effect n) as (_ & _ & _ & Hc).
  cbn [map fold_right List.filter]. rewrite Hc.
  cbn [Nat.add] in IH. rewrite IH.
  destruct (is_AveragePool n && has_ceil_mode n); reflexivity.
Qed.

(** X20. The patch count returned is the number of [AveragePool] nodes
    that carry at least one attribute named [ceil_mode], however many
    such attributes each of them carries. *)
Theorem patch_count_is_nodes m :
  snd (patch_model m)
  = length (List.filter (fun n => is_AveragePool n && has_ceil_mode n)
              (GraphProto.node (ModelProto.graph m))).
Proof. rewrite patch_model_eq. cbn [snd]. apply patch_nodes_count. Qed.

(** X21. The patch count is 0 exactly when no [AveragePool] node carries
    an attribute named [ceil_mode], and then the model is returned as it
    was. *)
Theorem patch_count_zero_iff m :
  (snd (patch_model m) = 0
   <-> no_ceil_mode (GraphProto.node (ModelProto.graph m)))
  /\ (snd (patch_model m) = 0 -> fst (patch_model m) = m).
Proof.
  assert (Hiff : snd (patch_model m) = 0
                 <-> no_ceil_mode (GraphProto.node (ModelProto.graph m))).
  { rewrite patch_count_is_nodes. unfold no_ceil_mode.
    induction (GraphProto.node (ModelProto.graph m)) as [|n nodes IH];
      cbn [List.filter].
    - split; [constructor | reflexivity].
    - destruct (is_AveragePool n) eqn:Hop; cbn [andb].
      + destruct (has_ceil_mode n) eqn:Hh.
        * split; [discriminate|]. intros Hall. inversion Hall as [|? ? Hn _].
          apply has_ceil_mode_false in Hn; [congruence | exact Hop].
        * rewrite IH. split.
          -- intros Hall. constructor; [|exact Hall].
             intros _. apply has_ceil_mode_false, Hh.
          -- intros Hall. inversion Hall. assumption.
      + rewrite IH. split.
        * intros Hall. constructor; [|exact Hall]. intros Hop'. congruence.
        * intros Hall. inversion Hall. assumption. }
  split; [exact Hiff|].
  intros H0. apply Hiff in H0. rewrite (patch_model_nothing m H0). reflexivity.
Qed.

End PatchInvariants.

(** ** The output path of the patcher with one argument *)

Section PatchPaths.
Context {onnx : Onnx} {requests : Requests}.

Lemma replace_from_absent old new s :
  PyStr.contains old s = false -> PyStr.replace_from old new 0 s = s.
Proof.
  induction s as [|c s IH]; [reflexivity|].
  cbn [PyStr.contains]. intros Hc. apply orb_false_iff in Hc as [Hs Hc].
  cbn [PyStr.replace_from]. rewrite Hs, (IH Hc). reflexivity.
Qed.

(** A string without [old] in it is returned as it is. *)
Lemma replace_absent old new s :
  PyStr.contains old s = false -> PyStr.replace old new s = s.
Proof.
  intros Hc. destruct old as [|a old].
  - destruct s; discriminate Hc.
  - apply replace_from_absent, Hc.
Qed.

(** ".onnx" cannot begin inside a non-empty [x] and end inside the
    ".onnx" that follows it. *)
Lemma startswith_onnx_app x :
  x <> EmptyString ->
  PyStr.startswith ".onnx" x = false ->
  PyStr.startswith ".onnx" (String.append x ".onnx") = false.
Proof.
  intros Hne H.
  destruct x as [|c1 [|c2 [|c3 [|c4 [|c5 x]]]]]; [congruence| | | | |];
    cbn [String.append PyStr.startswith] in *; try exact H;
    repeat match goal with
           | |- context [Ascii.eqb ?a ?c] => is_var c; destruct (Ascii.eqb a c)
           end; reflexivity.
Qed.

Lemma replace_from_stem stem :
  PyStr.contains ".onnx" stem = false ->
  PyStr.replace_from ".onnx" "_patched.onnx" 0 (String.append stem ".onnx")
  = String.append stem "_patched.onnx".
Proof.
  induction stem as [|c stem IH]; [reflexivity|].
  cbn [PyStr.contains]. intros Hc. apply orb_false_iff in Hc as [Hs Hc].
  pose proof (startswith_onnx_app (String c stem) ltac:(discriminate) Hs) as Hs'.
  change (String.append (String c stem) ".onnx")
    with (String c (String.append stem ".onnx")) in *.
  change (String.append (String c stem) "_patched.onnx")
    with (String c (String.append stem "_patched.onnx")).
  cbn [PyStr.replace_from]. rewrite Hs', (IH Hc). reflexivity.
Qed.

(** X22. With one argument that ends in ".onnx" and has no other
    ".onnx" in it, the patcher writes next to the input: the output path
    is the input path with "_patched" put before the extension. *)
Theorem patch_paths_extension prog stem fs :
  PyStr.contains ".onnx" stem = false ->
  patch_paths [prog; String.append stem ".onnx"] fs
  = (inr (String.append stem ".onnx", String.append stem "_patched.onnx"), fs).
Proof.
  intros Hc. unfold patch_paths, ret, PyStr.replace.
  rewrite (replace_from_stem stem Hc). reflexivity.
Qed.

(** X23. With one argument that has no ".onnx" in it, the output path is
    the input path itself: a model that needs patching is overwritten in
    place by its patched version. *)
Theorem patch_main_in_place prog input fs bytes m :
  fs !! input = Some bytes -> parse bytes = Some m ->
  PyStr.contains ".onnx" input = false ->
  (0 < snd (patch_model m))%nat ->
  patch_main [prog; input] fs
  = (inr tt, <[input := serialize (fst (patch_model m))]> fs).
Proof.
  intros Hf Hp Hc Hpos. rewrite patch_main_cases, Hf, Hp.
  apply Nat.ltb_lt in Hpos. rewrite Hpos.
  cbn [patch_output]. rewrite (replace_absent _ _ _ Hc). reflexivity.
Qed.

End PatchPaths.

(** ** The properties above on example runs *)

Lemma extract_main_missing_input_witness :
  extract_main ["extract_emap.py"; "missing.onnx"]%string ∅
  = (inl (SystemExit 1), ∅).
Proof. apply extract_main_missing_input. apply lookup_empty. Defined.

Lemma extract_main_not_a_model_witness :
  extract_main ["extract_emap.py"; "notes.txt"; "emap.bin"]%string
    {["notes.txt"%string := [1; 2; 3]]}
  = (inl ModelLoadError, {["notes.txt"%string := [1; 2; 3]]}).
Proof.
  apply extract_main_not_a_model with (bytes := [1; 2; 3]).
  - apply lookup_singleton_eq.
  - reflexivity.
Defined.

Lemma extract_main_error_keeps_files_witness :
  snd (extract_main ["extract_emap.py"; "model.onnx"; "emap.bin"]%string
         (fs_of "model.onnx" (model_of [] [bias_4])))
  = fs_of "model.onnx" (model_of [] [bias_4]).
Proof.
  apply extract_main_error_keeps_files with (e := not_found).
  rewrite (extract_main_run _ _ _ _ _ _ (model_of [] [bias_4])
             (fs_of_lookup _ _) (parse_serialize _)).
  reflexivity.
Defined.

Lemma extract_main_cached_witness :
  extract_main (requests := serve EMAP_MODEL_URL [1; 2; 3]) ["extract_emap.py"%string]
    (fs_of "inswapper_128.onnx" (model_of [] [Emap_2]))
  = extract_main (requests := offline)
      ["extract_emap.py"; "inswapper_128.onnx"; "emap.bin"]%string
      (fs_of "inswapper_128.onnx" (model_of [] [Emap_2])).
Proof.
  apply extract_main_cached. exists (serialize (model_of [] [Emap_2])).
  apply fs_of_lookup.
Defined.

Lemma extract_main_download_fails_witness :
  extract_main (requests := offline) ["extract_emap.py"%string] ∅
  = (inl ConnectionError, ∅).
Proof.
  apply extract_main_download_fails.
  - apply lookup_empty.
  - reflexivity.
Defined.

Lemma extract_main_downloads_witness :
  extract_main
    (requests := serve EMAP_MODEL_URL (serialize (model_of [] [Emap_2])))
    ["extract_emap.py"%string] ∅
  = extract_main
      (requests := serve EMAP_MODEL_URL (serialize (model_of [] [Emap_2])))
      ["extract_emap.py"; "inswapper_128.onnx"; "emap.bin"]%string
      (<["inswapper_128.onnx"%string := serialize (model_of [] [Emap_2])]> ∅).
Proof.
  apply extract_main_downloads.
  - apply lookup_empty.
  - reflexivity.
Defined.

Lemma scan_returns_first_match_witness :
  exists pre t post,
    [bias_4; Emap_2; emap_2x2] = pre ++ t :: post
    /\ Forall no_rule pre
    /\ (name_match t = true \/ shape_match t = true)
    /\ to_array t = inr (array_of Emap_2).
Proof. apply scan_returns_first_match. reflexivity. Defined.

Lemma shape_match_file_size_witness :
  exists file,
    extract_main ["extract_emap.py"; "model.onnx"; "emap.bin"]%string
      (fs_of "model.onnx" (model_of [] [bias_4; weight_512]))
    = (inr tt, <["emap.bin"%string := file]>
                 (fs_of "model.onnx" (model_of [] [bias_4; weight_512])))
    /\ Z.of_nat (length file) = 1048576.
Proof.
  apply shape_match_file_size
    with (bytes := serialize (model_of [] [bias_4; weight_512]))
         (m := model_of [] [bias_4; weight_512])
         (pre := [bias_4]) (t := weight_512) (post := []).
  - apply fs_of_lookup.
  - apply parse_serialize.
  - reflexivity.
  - constructor; [split; reflexivity | constructor].
  - reflexivity.
  - exact wf_weight_512.
Defined.

Lemma float32_file_lossless_witness :
  ndarray.buffer (array_of Emap_2) = ndarray.buffer (array_of Emap_2).
Proof.
  apply float32_file_lossless.
  - reflexivity.
  - reflexivity.
  - repeat constructor; cbn; lia.
  - repeat constructor; cbn; lia.
  - reflexivity.
Defined.

Lemma patch_main_missing_input_witness :
  patch_main ["patch_det10g.py"; "missing.onnx"]%string ∅
  = (inl (SystemExit 1), ∅).
Proof. apply patch_main_missing_input. apply lookup_empty. Defined.

Lemma patch_main_not_a_model_witness :
  patch_main ["patch_det10g.py"; "notes.txt"; "out.onnx"]%string
    {["notes.txt"%string := [1; 2; 3]]}
  = (inl ModelLoadError, {["notes.txt"%string := [1; 2; 3]]}).
Proof.
  apply patch_main_not_a_model with (bytes := [1; 2; 3]).
  - apply lookup_singleton_eq.
  - reflexivity.
Defined.

Lemma patch_main_error_keeps_files_witness :
  snd (patch_main ["patch_det10g.py"; "notes.txt"; "out.onnx"]%string
         {["notes.txt"%string := [1; 2; 3]]})
  = {["notes.txt"%string := [1; 2; 3]]}.
Proof.
  apply patch_main_error_keeps_files with (e := ModelLoadError).
  rewrite patch_main_cases, lookup_singleton_eq. reflexivity.
Defined.

Lemma patch_main_cached_witness :
  patch_main (requests := serve DET_MODEL_URL [1; 2; 3]) ["patch_det10g.py"%string]
    (fs_of "det_10g.onnx" det_model)
  = patch_main (requests := offline)
      ["patch_det10g.py"; "det_10g.onnx"; "det_10g_patched.onnx"]%string
      (fs_of "det_10g.onnx" det_model).
Proof.
  apply patch_main_cached. exists (serialize det_model). apply fs_of_lookup.
Defined.

Lemma patch_main_download_fails_witness :
  patch_main (requests := offline) ["patch_det10g.py"%string] ∅
  = (inl ConnectionError, ∅).
Proof.
  apply patch_main_download_fails.
  - apply lookup_empty.
  - reflexivity.
Defined.

Lemma patch_main_downloads_witness :
  patch_main (requests := serve DET_MODEL_URL (serialize det_model))
    ["patch_det10g.py"%string] ∅
  = patch_main (requests := serve DET_MODEL_URL (serialize det_model))
      ["patch_det10g.py"; "det_10g.onnx"; "det_10g_patched.onnx"]%string
      (<["det_10g.onnx"%string := serialize det_model]> ∅).
Proof.
  apply patch_main_downloads.
  - apply lookup_empty.
  - reflexivity.
Defined.

Lemma patch_paths_extension_witness :
  patch_paths ["patch_det10g.py"; String.append "./models/det_10g" ".onnx"]%string ∅
  = (inr (String.append "./models/det_10g" ".onnx",
          String.append "./models/det_10g" "_patched.onnx"), ∅).
Proof. apply patch_paths_extension. reflexivity. Defined.

Lemma patch_main_in_place_witness :
  patch_main ["patch_det10g.py"; "det_10g"]%string (fs_of "det_10g" det_model)
  = (inr tt, <["det_10g"%string := serialize (fst (patch_model det_model))]>
               (fs_of "det_10g" det_model)).
Proof.
  apply patch_main_in_place with (bytes := serialize det_model).
  - apply fs_of_lookup.
  - apply parse_serialize.
  - reflexivity.
  - apply Nat.lt_0_1.
Defined.

Lemma extract_main_download_breaks_witness :
  extract_main (requests := flaky EMAP_MODEL_URL [8; 1; 18])
    ["extract_emap.py"%string] ∅
  = (inl ConnectionError, <["inswapper_128.onnx"%string := [8; 1; 18]]> ∅).
Proof.
  apply extract_main_download_breaks.
  - apply lookup_empty.
  - reflexivity.
Defined.

Lemma extract_main_after_broken_download_witness :
  extract_main
    (requests := serve EMAP_MODEL_URL (serialize (model_of [] [Emap_2])))
    ["extract_emap.py"%string]
    (snd (extract_main (requests := flaky EMAP_MODEL_URL [1; 2; 3])
            ["extract_emap.py"%string] ∅))
  = (inl ModelLoadError, <["inswapper_128.onnx"%string := [1; 2; 3]]> ∅).
Proof.
  apply extract_main_after_broken_download with (e := ConnectionError).
  - apply lookup_empty.
  - reflexivity.
  - reflexivity.
Defined.

Lemma extract_main_malformed_witness :
  extract_main ["extract_emap.py"; "model.onnx"; "emap.bin"]%string
    (fs_of "model.onnx" (model_of [] [bias_4; emap_short; Emap_2]))
  = (inl reshape_error,
     fs_of "model.onnx" (model_of [] [bias_4; emap_short; Emap_2])).
Proof.
  apply extract_main_malformed
    with (bytes := serialize (model_of [] [bias_4; emap_short; Emap_2]))
         (m := model_of [] [bias_4; emap_short; Emap_2])
         (pre := [bias_4]) (t := emap_short) (post := [Emap_2]).
  - apply fs_of_lookup.
  - apply parse_serialize.
  - reflexivity.
  - constructor; [split; reflexivity | constructor].
  - left. reflexivity.
  - repeat constructor; discriminate.
  - discriminate.
Defined.

Lemma patch_main_download_breaks_witness :
  patch_main (requests := flaky DET_MODEL_URL [8; 1; 18])
    ["patch_det10g.py"%string] ∅
  = (inl ConnectionError, <["det_10g.onnx"%string := [8; 1; 18]]> ∅).
Proof.
  apply patch_main_download_breaks.
  - apply lookup_empty.
  - reflexivity.
Defined.

Lemma patch_main_after_broken_download_witness :
  patch_main (requests := serve DET_MODEL_URL (serialize det_model))
    ["patch_det10g.py"%string]
    (snd (patch_main (requests := flaky DET_MODEL_URL [1; 2; 3])
            ["patch_det10g.py"%string] ∅))
  = (inl ModelLoadError, <["det_10g.onnx"%string := [1; 2; 3]]> ∅).
Proof.
  apply patch_main_after_broken_download with (e := ConnectionError).
  - apply lookup_empty.
  - reflexivity.
  - reflexivity.
Defined.
